(** * Risk scoring and e-mail report of the legal document summarizer

    Shallow embedding of the risk-scoring code of [app.py]
    ([calculate_risk_score], [display_risks_with_filters]) and of
    [email_service.py] ([validate_email], [prepare_email_content],
    [calculate_risk_counts], [categorize_risks], the send gate of
    [email_ui_section]).

    Python [str] values are modelled as lists of 8-bit characters, read as
    the code points 0..255 (Latin-1); [lower], [strip] and [split] follow
    Python's behaviour on that range, and the statements below are about
    the texts of that range.  Beyond it [str.lower] is no longer a map
    over the characters: it can lengthen a text (U+0130 becomes two code
    points) and depend on the neighbours (the final sigma), which is why
    the statements that bound a length bound the length of the lower-cased
    text.  Python floats are modelled exactly:
    a float is the dyadic rational it denotes, and division and
    multiplication round to 53 significant bits, ties to even. *)

From Stdlib Require Import List Ascii String ZArith Bool Lia.
From Stdlib Require Import Sorted Permutation.
Import ListNotations.

Open Scope Z_scope.

(** ** Python strings *)

Module PyStr.

Definition str := list ascii.

(** A literal of the source. *)
Definition lit (s : string) : str := list_ascii_of_string s.

Definition code (c : ascii) : N := N_of_ascii c.

(** [str.isspace] on the code points below 256: TAB..CR, FS..US, SPACE,
    NEL and NBSP. *)
Definition is_space (c : ascii) : bool :=
  let n := code c in
  ((9 <=? n) && (n <=? 13) || (28 <=? n) && (n <=? 32)
   || (n =? 133) || (n =? 160))%N.

(** [str.lower] on one code point below 256: A..Z and the Latin-1
    capitals 0xC0..0xDE (the multiplication sign 0xD7 apart) move up by
    32; every other code point of the range, the micro sign 0xB5 and the
    sharp s 0xDF among them, is left as it is. *)
Definition lower_char (c : ascii) : ascii :=
  let n := code c in
  if ((65 <=? n) && (n <=? 90)
      || (192 <=? n) && (n <=? 222) && negb (n =? 215))%N
  then ascii_of_N (n + 32) else c.

(** [s.lower()] for a text of code points below 256, where it lowers
    each character on its own. *)
Definition lower (s : str) : str := map lower_char s.

Definition dot : ascii := "."%char.

(** [s.split(sep)] for a one-character separator: always at least one
    piece, empty pieces kept. *)
Fixpoint split_on (sep : ascii) (s : str) : list str :=
  match s with
  | [] => [[]]
  | c :: r =>
      if Ascii.eqb c sep then [] :: split_on sep r
      else match split_on sep r with
           | p :: ps => (c :: p) :: ps
           | [] => [[c]]
           end
  end.

Fixpoint lstrip (s : str) : str :=
  match s with
  | [] => []
  | c :: r => if is_space c then lstrip r else s
  end.

(** [s.rstrip()]: a character stays when something is kept after it or
    when it is no space. *)
Fixpoint rstrip (s : str) : str :=
  match s with
  | [] => []
  | c :: r =>
      match rstrip r with
      | [] => if is_space c then [] else [c]
      | kept => c :: kept
      end
  end.

(** [s.strip()] *)
Definition strip (s : str) : str := rstrip (lstrip s).

(** Truth value of a string or of a list: non-empty. *)
Definition truthy {A : Type} (s : list A) : bool :=
  match s with [] => false | _ :: _ => true end.

(** [s.split()]: the maximal runs of non-space characters. *)
Fixpoint split_ws (s : str) : list str :=
  match s with
  | [] => []
  | c :: r =>
      if is_space c then split_ws r
      else match r with
           | [] => [[c]]
           | d :: _ =>
               if is_space d then [c] :: split_ws r
               else match split_ws r with
                    | w :: ws => (c :: w) :: ws
                    | [] => [[c]]
                    end
           end
  end.

Fixpoint startswith (w s : str) : bool :=
  match w, s with
  | [], _ => true
  | _ :: _, [] => false
  | a :: w', b :: s' => Ascii.eqb a b && startswith w' s'
  end.

(** [w in s] *)
Fixpoint contains (w s : str) : bool :=
  startswith w s
  || match s with
     | [] => false
     | _ :: r => contains w r
     end.

(** Scan of [s.count(w)] for a non-empty [w]: occurrences are taken from
    the left and do not overlap; [skip] is the number of characters still
    covered by the last occurrence. *)
Fixpoint count_from (w : str) (skip : nat) (s : str) : nat :=
  match s with
  | [] => 0
  | _ :: r =>
      match skip with
      | S k => count_from w k r
      | O => if startswith w s
             then S (count_from w (Nat.pred (List.length w)) r)
             else count_from w 0 r
      end
  end.

(** [s.count(w)] *)
Definition count (s w : str) : nat :=
  match w with
  | [] => S (List.length s)
  | _ :: _ => count_from w 0 s
  end.

(** [any(word in s for word in words)] *)
Definition any_in (words : list str) (s : str) : bool :=
  existsb (fun word => contains word s) words.

(** [[s.strip() for s in text.split('.') if s.strip()]] *)
Definition sentences_of (text : str) : list str :=
  map strip (filter (fun s => truthy (strip s)) (split_on dot text)).

(** [len(s.split())] *)
Definition word_count (s : str) : Z := Z.of_nat (List.length (split_ws s)).

End PyStr.

Import PyStr.

(** ** Python floats, as far as the scoring arithmetic needs them

    The code divides two non-negative integers, multiplies the quotient by
    an integer constant and rounds the product to an integer.  A float is
    kept as the fraction [(n, d)] it denotes, [d] a power of two.  The
    quotient of the code lies between 1/3 and 3 and the product below 101,
    far from overflow and underflow, so only the 53-bit rounding matters. *)

Module PyFloat.

Definition float := (Z * Z)%type.

(** [n / d] rounded to the nearest integer, ties to the even one
    ([0 <= n], [0 < d]). *)
Definition rne (n d : Z) : Z :=
  let q := n / d in
  let r := n mod d in
  if 2 * r <? d then q
  else if d <? 2 * r then q + 1
  else if Z.even q then q else q + 1.

(** The fraction [n / (d * 2 ^ e)]. *)
Definition scaled (n d e : Z) : Z * Z :=
  if 0 <=? e then (n, d * 2 ^ e) else (n * 2 ^ (- e), d).

(** The double nearest to [n / d]: the exponent [e] puts
    [n / (d * 2 ^ e)] in [[2^52, 2^53)], and the significand is rounded
    there. *)
Definition round53 (n d : Z) : float :=
  if n <=? 0 then (0, 1)
  else
    let e0 := Z.log2 n - Z.log2 d - 52 in
    let e := let '(a, b) := scaled n d e0 in
             if a / b <? 2 ^ 52 then e0 - 1 else e0 in
    let '(a, b) := scaled n d e in
    let m := rne a b in
    if 0 <=? e then (m * 2 ^ e, 1) else (m, 2 ^ (- e)).

(** [a / b] on two ints (true division); [None] is the
    [ZeroDivisionError] of a zero divisor. *)
Definition truediv (a b : Z) : option float :=
  if b =? 0 then None else Some (round53 a b).

(** [x * k] for a float [x] and an int [k] that a double holds exactly. *)
Definition mul_int (x : float) (k : Z) : float :=
  round53 (fst x * k) (snd x).

(** [round(x)]: nearest int, ties to even. *)
Definition round (x : float) : Z := rne (fst x) (snd x).

End PyFloat.

Import PyFloat.

(** ** Values the functions receive

    The session holds [None] or a string under ["risks"]; the guards of the
    code distinguish strings from every other value. *)

Inductive pyval : Type :=
| PyNone
| PyBool (b : bool)
| PyInt (n : Z)
| PyStr (s : str).

(** [bool(v)] *)
Definition py_truthy (v : pyval) : bool :=
  match v with
  | PyNone => false
  | PyBool b => b
  | PyInt n => negb (n =? 0)
  | PyStr s => truthy s
  end.

(** [isinstance(v, str)] *)
Definition isinstance_str (v : pyval) : bool :=
  match v with PyStr _ => true | _ => false end.

Definition words (l : list string) : list str := map lit l.

(** [sum(...)] over ints *)
Definition sum (l : list Z) : Z := fold_right Z.add 0 l.

(** [sum(1 for s in sentences if p(s))] *)
Definition count_if (p : str -> bool) (sentences : list str) : Z :=
  sum (map (fun _ => 1) (filter p sentences)).

Inductive severity : Type := High | Medium | Low.

(** The three lists [high_risks, medium_risks, low_risks] of the
    categorising loops. *)
Definition risk_lists := (list str * list str * list str)%type.

(** One iteration of the loop shared by [categorize_risks] and
    [display_risks_with_filters]; the two differ in their keyword lists
    only:
<<
    sentence_lower = sentence.lower()
    if any(word in sentence_lower for word in HIGH):   high_risks.append(sentence)
    elif any(word in sentence_lower for word in MEDIUM): medium_risks.append(sentence)
    elif len(sentence.split()) > 5:                     low_risks.append(sentence)
>> *)
Definition categorize_step (high_kw medium_kw : list str)
    (acc : risk_lists) (sentence : str) : risk_lists :=
  let '(high_risks, medium_risks, low_risks) := acc in
  let sentence_lower := lower sentence in
  if any_in high_kw sentence_lower then
    (high_risks ++ [sentence], medium_risks, low_risks)
  else if any_in medium_kw sentence_lower then
    (high_risks, medium_risks ++ [sentence], low_risks)
  else if 5 <? word_count sentence then
    (high_risks, medium_risks, low_risks ++ [sentence])
  else acc.

Definition categorize_loop (high_kw medium_kw : list str)
    (sentences : list str) : risk_lists :=
  fold_left (categorize_step high_kw medium_kw) sentences ([], [], []).

(** The branch of [categorize_step] a sentence takes. *)
Definition goes_high (high_kw : list str) (s : str) : bool :=
  any_in high_kw (lower s).

Definition goes_medium (high_kw medium_kw : list str) (s : str) : bool :=
  negb (goes_high high_kw s) && any_in medium_kw (lower s).

Definition goes_low (high_kw medium_kw : list str) (s : str) : bool :=
  negb (goes_high high_kw s) && negb (any_in medium_kw (lower s))
  && (5 <? word_count s).

(** ** app.py *)

Module App.

(** [calculate_risk_score(risks_text)], lines 383-406: the tuple
    [(score, high_count, medium_count, low_count)], or [None] if the call
    raises. *)
Definition calculate_risk_score (risks_text : pyval)
    : option (Z * Z * Z * Z) :=
  if negb (py_truthy risks_text) || negb (isinstance_str risks_text)
  then Some (0, 0, 0, 0)
  else
    match risks_text with
    | PyStr text =>
        let text_lower := lower text in
        let max_text_length := Z.min (Z.of_nat (List.length text_lower)) 10000 in
        let text_sample := firstn (Z.to_nat max_text_length) text_lower in
        let high_count :=
          sum (map (fun word => Z.of_nat (count text_sample word))
                   (words ["critical"; "severe"; "high"]%string)) in
        let medium_count :=
          sum (map (fun word => Z.of_nat (count text_sample word))
                   (words ["moderate"; "medium"]%string)) in
        let low_count :=
          Z.of_nat (List.length (split_on dot text_sample))
          - high_count - medium_count in
        let low_count := Z.max 0 low_count in
        let total := high_count + medium_count + low_count in
        if total =? 0 then Some (0, 0, 0, 0)
        else
          match truediv (high_count * 3 + medium_count * 2 + low_count)
                        (Z.max total 1) with
          | Some ratio =>
              let score := Z.min 100 (round (mul_int ratio 20)) in
              Some (score, high_count, medium_count, low_count)
          | None => None
          end
    | _ => Some (0, 0, 0, 0)
    end.

Definition high_risk_keywords : list str :=
  words ["critical"; "severe"; "high risk"; "significant"; "major";
         "serious"]%string.

Definition medium_risk_keywords : list str :=
  words ["moderate"; "medium"; "potential"; "possible"; "concerning"]%string.

(** [display_risks_with_filters(risks_text)], lines 441-479: the three
    lists the display is made from; the early returns show a warning and
    no finding. *)
Definition display_risks_with_filters (risks_text : pyval) : risk_lists :=
  if negb (py_truthy risks_text) || negb (isinstance_str risks_text)
  then ([], [], [])
  else
    match risks_text with
    | PyStr text =>
        let sentences := sentences_of text in
        match sentences with
        | [] => ([], [], [])
        | _ :: _ =>
            categorize_loop high_risk_keywords medium_risk_keywords sentences
        end
    | _ => ([], [], [])
    end.

End App.

(** ** email_service.py *)

Module EmailService.

(** [validate_email(email)], lines 162-172, on the string the text input
    returns. *)
Definition validate_email (email : str) : bool :=
  if negb (truthy email) then false
  else if negb (contains (lit "@") email) || negb (contains (lit ".") email)
  then false
  else true.

(** [calculate_risk_counts(risks_text)], lines 246-272, or [None] if the
    call raises; its one call site passes a string. *)
Definition calculate_risk_counts (risks_text : str)
    : option (Z * Z * Z * Z) :=
  let text_lower := lower risks_text in
  let sentences := sentences_of text_lower in
  let high_count :=
    count_if
      (any_in (words ["critical"; "severe"; "high risk"; "significant";
                      "major"]%string))
      sentences in
  let medium_count :=
    count_if
      (any_in (words ["moderate"; "medium"; "potential";
                      "concerning"]%string))
      sentences in
  let low_count :=
    count_if
      (fun s =>
         (5 <? word_count s)
         && negb (any_in (words ["critical"; "severe"; "high risk";
                                 "moderate"; "medium"; "potential"]%string)
                         s))
      sentences in
  let total := high_count + medium_count + low_count in
  if total =? 0 then Some (0, 0, 0, 0)
  else
    match truediv (high_count * 3 + medium_count * 2 + low_count)
                  (total * 3) with
    | Some ratio =>
        let score := Z.min 100 (round (mul_int ratio 100)) in
        Some (score, high_count, medium_count, low_count)
    | None => None
    end.

(** [categorize_risks(risks_text)], lines 274-292; its one call site
    passes a string. *)
Definition categorize_risks (risks_text : str) : risk_lists :=
  let sentences := sentences_of risks_text in
  categorize_loop (words ["critical"; "severe"; "high"]%string)
                  (words ["moderate"; "medium"]%string)
                  sentences.

(** The entries appended to [email_content], with the holes of the
    f-strings kept as data. *)
Inductive line : Type :=
| Title (t : string)  (* a newline, then the title *)
| Rule
| OverallScore (score : Z)
| RiskLevel (level : severity)
| Issues (sev : severity) (n : Z)
| Heading (sev : severity)
| Item (i : Z) (risk : str)
| Text (t : str)
| Note (t : string).

(** [enumerate(risks, start)] turned into the entries [f"{i}. {risk}"]. *)
Fixpoint numbered (start : Z) (risks : list str) : list line :=
  match risks with
  | [] => []
  | risk :: rest => Item start risk :: numbered (start + 1) rest
  end.

Definition priority_block (sev : severity) (risks : list str) : list line :=
  match risks with
  | [] => []
  | _ :: _ => Heading sev :: numbered 1 risks
  end.

(** Lines 193-209 of [prepare_email_content]: the risk score section,
    or [None] if [calculate_risk_counts] raises. *)
Definition risk_score_section (include_risk_score : bool) (risks : pyval)
    : option (list line) :=
  if include_risk_score && py_truthy risks then
    match risks with
    | PyStr text =>
        match calculate_risk_counts text with
        | Some (score, high, medium, low) =>
            Some [Title "RISK SCORE"; Rule;
                  OverallScore score;
                  RiskLevel (if 70 <=? score then High
                             else if 40 <=? score then Medium else Low);
                  Issues High high;
                  Issues Medium medium;
                  Issues Low low]
        | None => None
        end
    | _ =>
        Some [Title "RISK SCORE"; Rule;
              Note "Risk score analysis is included in the detailed risk section."]
    end
  else Some [].

(** Lines 211-242 of [prepare_email_content]: the risk analysis section. *)
Definition risk_analysis_section (include_risks : bool) (risks : pyval)
    : list line :=
  if include_risks && py_truthy risks then
    [Title "RISK ANALYSIS"; Rule]
    ++ match risks with
       | PyStr risks_text =>
           let '(high_risks, medium_risks, low_risks) :=
             categorize_risks risks_text in
           priority_block High high_risks
           ++ priority_block Medium medium_risks
           ++ priority_block Low low_risks
           ++ (if negb (truthy high_risks || truthy medium_risks
                        || truthy low_risks)
               then [Text risks_text] else [])
       | _ => [Note "Detailed risk analysis is not available in text format."]
       end
  else [].

(** [prepare_email_content], the entries that depend on the risk text.
    The summary section, which precedes them, reads the summary only and
    is left out; [include_visuals] is not used by the code. *)
Definition prepare_email_content (include_risk_score include_risks : bool)
    (risks : pyval) : option (list line) :=
  match risk_score_section include_risk_score risks with
  | Some score_entries =>
      Some (score_entries ++ risk_analysis_section include_risks risks)
  | None => None
  end.

(** The count an [Issues] entry of the content prints for [sev]. *)
Fixpoint printed_count (sev : severity) (content : list line) : option Z :=
  match content with
  | [] => None
  | Issues sev' n :: rest =>
      match sev, sev' with
      | High, High | Medium, Medium | Low, Low => Some n
      | _, _ => printed_count sev rest
      end
  | _ :: rest => printed_count sev rest
  end.

(** The number of entries that follow one another at the head of the
    content and are [Item]s. *)
Fixpoint items_run (content : list line) : Z :=
  match content with
  | Item _ _ :: rest => 1 + items_run rest
  | _ => 0
  end.

(** The number of findings listed under the heading of [sev]. *)
Fixpoint listed_count (sev : severity) (content : list line) : Z :=
  match content with
  | [] => 0
  | Heading sev' :: rest =>
      match sev, sev' with
      | High, High | Medium, Medium | Low, Low => items_run rest
      | _, _ => listed_count sev rest
      end
  | _ :: rest => listed_count sev rest
  end.

(** What pressing the send button does, lines 326-331 of
    [email_ui_section]. *)
Inductive send_outcome : Type :=
| InvalidAddress
| NothingSelected
| SendAttempted.

Definition send_button (recipient : str)
    (include_summary include_risk_score include_risks : bool)
    : send_outcome :=
  if negb (validate_email recipient) then InvalidAddress
  else if negb (existsb (fun b => b)
                  [include_summary; include_risk_score; include_risks])
  then NothingSelected
  else SendAttempted.

End EmailService.

(** ** The formula of the specification *)

Module Spec.

(** [min(100, round((high*3 + medium*2 + low*1) / total * 20))] with
    [total = high + medium + low], and 0 when [total] is 0. *)
Definition score (high medium low : Z) : Z :=
  let total := high + medium + low in
  if total =? 0 then 0
  else Z.min 100
         (round (mul_int (round53 (high * 3 + medium * 2 + low * 1) total)
                         20)).

(** The HIGH keywords of the specification's classification, section
    4.1, step 2. *)
Definition high_keywords : list str :=
  words ["critical"; "severe"; "high risk"; "significant"; "major";
         "serious"; "high"]%string.

(** The text of the worked example. *)
Definition vendor_text : str :=
  lit "The vendor shall indemnify against all critical liabilities. There is a moderate compliance gap noted here today.".

End Spec.

(** ** app.py, the displays of the score *)

Module AppDisplay.

(** The chain [if score >= 70: ... elif score >= 40: ... else: ...] of
    [display_risk_score] (lines 423-428), [display_risk_summary] (lines
    517-522 and 533-544) and [display_risk_visualizer] (lines 560-568). *)
Definition risk_level (score : Z) : severity :=
  if 70 <=? score then High
  else if 40 <=? score then Medium
  else Low.

(** What [display_risk_score] writes. *)
Inductive score_display : Type :=
| NoRiskData
| ScoreShown (score : Z) (level : severity) (high medium low : Z)
| ScoreError.

(** [display_risk_score(risks_text)], lines 408-439; the [except] branch
    catches what [calculate_risk_score] raises. *)
Definition display_risk_score (risks_text : pyval) : score_display :=
  if negb (py_truthy risks_text) || negb (isinstance_str risks_text)
  then NoRiskData
  else
    match App.calculate_risk_score risks_text with
    | Some (score, high_count, medium_count, low_count) =>
        ScoreShown score (risk_level score)
                   high_count medium_count low_count
    | None => ScoreError
    end.

End AppDisplay.

(** ** Names for the parts of [calculate_risk_score] *)

Module AppCounts.

(** [risks_text.lower()[:10000]], the text the keywords are counted in. *)
Definition text_sample (text : str) : str :=
  firstn (Z.to_nat 10000) (lower text).

(** [sum(text_sample.count(word) for word in keywords)] *)
Definition occurrences (sample : str) (keywords : list string) : Z :=
  sum (map (fun word => Z.of_nat (count sample word)) (words keywords)).

(** [len(text_sample.split('.'))] *)
Definition pieces (sample : str) : Z :=
  Z.of_nat (List.length (split_on dot sample)).

End AppCounts.

(** ** app.py, the detailed analysis tab *)

Module DetailedAnalysis.

(** [st.error], [st.warning] and [st.info]. *)
Inductive box : Type := ErrorBox | WarningBox | InfoBox.

(** The chain of lines 736-741. *)
Definition box_of (sentence : str) : box :=
  if contains (lit "critical") (lower sentence)
     || contains (lit "severe") (lower sentence)
     || contains (lit "high") (lower sentence)
  then ErrorBox
  else if contains (lit "moderate") (lower sentence)
          || contains (lit "medium") (lower sentence)
  then WarningBox
  else InfoBox.

(** [[s.strip() for s in text.split('.') if len(s.strip()) > 10][:15]] *)
Definition sentences (text : str) : list str :=
  firstn 15
    (map strip
       (filter (fun s => 10 <? Z.of_nat (List.length (strip s)))
               (split_on dot text))).

(** [enumerate(l, start)] *)
Fixpoint enumerate {A : Type} (start : Z) (l : list A) : list (Z * A) :=
  match l with
  | [] => []
  | x :: rest => (start, x) :: enumerate (start + 1) rest
  end.

(** Lines 729-741 of the risk tab: the boxes written for the risks text
    of the session, each with its number and its sentence. *)
Definition detailed_analysis (risks : str) : list (Z * box * str) :=
  if truthy risks then
    map (fun entry => (fst entry, box_of (snd entry), snd entry))
        (enumerate 1 (sentences risks))
  else [].

End DetailedAnalysis.

(** ** app.py, the text export *)

Module TxtExport.

Definition newline : ascii := "010"%char.

(** [a == b] on strings *)
Fixpoint str_eqb (a b : str) : bool :=
  match a, b with
  | [], [] => true
  | x :: a', y :: b' => Ascii.eqb x y && str_eqb a' b'
  | _, _ => false
  end.

(** [sep.join(parts)] *)
Fixpoint join (sep : str) (parts : list str) : str :=
  match parts with
  | [] => []
  | part :: rest =>
      match rest with
      | [] => part
      | _ :: _ => part ++ sep ++ join sep rest
      end
  end.

(** The test of line 113. *)
Definition is_section_header (line : str) : bool :=
  contains (lit "DOCUMENT SUMMARY") line
  || contains (lit "RISK ANALYSIS") line
  || contains (lit "RISK SCORE") line.

(** The state of the loop of [generate_txt]:
    [(in_section, section_title, formatted_lines)]. *)
Definition txt_state := (bool * str * list str)%type.

(** One iteration of the loop, lines 111-132. *)
Definition txt_step (state : txt_state) (line : str) : txt_state :=
  let '(in_section, section_title, formatted_lines) := state in
  if is_section_header line then
    let formatted_lines :=
      if in_section then formatted_lines ++ [[]] else formatted_lines in
    let section_title := strip line in
    (true, section_title,
     formatted_lines ++ [[]] ++ [section_title]
     ++ [repeat "-"%char (List.length section_title)])
  else if str_eqb (strip line) (repeat "="%char 50) then state
  else if truthy (strip line)
       then (in_section, section_title, formatted_lines ++ [line])
       else state.

(** The list [formatted_lines] at the end of [generate_txt(content)];
    [now] is [datetime.now().strftime('%Y-%m-%d %H:%M')]. *)
Definition formatted_lines (now content : str) : list str :=
  let lines := split_on newline content in
  let header :=
    [repeat "="%char 80;
     lit "LEGAL DOCUMENT ANALYSIS REPORT";
     lit "Generated on: " ++ now;
     repeat "="%char 80;
     []] in
  let '(_, _, formatted) := fold_left txt_step lines (false, [], header) in
  formatted ++ [[]; repeat "-"%char 80; lit "End of Report"].

(** [generate_txt(content)], lines 94-139. *)
Definition generate_txt (now content : str) : str :=
  join [newline] (formatted_lines now content).

End TxtExport.

(** ** app.py, the export content of the sidebar *)

Module Sidebar.

Import TxtExport.

(** The test a line passes to be copied by [generate_txt], lines 126-132:
    not a rule of 50 ["="] and not blank. *)
Definition is_kept (line : str) : bool :=
  negb (str_eqb (strip line) (repeat "="%char 50)) && truthy (strip line).

(** [export_content], lines 798-808, for the two entries of the
    multiselect and the summary and the risks of the session. *)
Definition export_content (summary_selected risks_selected : bool)
    (summary risks : str) : str :=
  (if summary_selected && truthy summary
   then lit "DOCUMENT SUMMARY" ++ [newline]
        ++ repeat "="%char 50 ++ [newline]
        ++ summary ++ [newline; newline]
   else [])
  ++ (if risks_selected && truthy risks
      then lit "RISK ANALYSIS" ++ [newline]
           ++ repeat "="%char 50 ++ [newline]
           ++ risks ++ [newline; newline]
      else []).

End Sidebar.

(** The frame [generate_txt] puts around the content: lines 101-105 and
    135-137. *)
Module TxtFrame.

Definition header (now : str) : list str :=
  [repeat "="%char 80;
   lit "LEGAL DOCUMENT ANALYSIS REPORT";
   lit "Generated on: " ++ now;
   repeat "="%char 80;
   []].

Definition footer : list str :=
  [[]; repeat "-"%char 80; lit "End of Report"].

End TxtFrame.

(** ** app.py, the risk visualizer *)

Module Visualizer.

(** [int(x)] for a float that is not negative. *)
Definition to_int (x : float) : Z := fst x / snd x.

(** [risk_keywords], lines 600-610. *)
Definition risk_keywords : list (string * string) :=
  [("non-compliance", "regulatory requirements");
   ("liability", "legal exposure");
   ("breach", "contract terms");
   ("confidentiality", "disclosure");
   ("warranty", "guarantees");
   ("termination", "cancellation");
   ("intellectual property", "IP rights");
   ("dispute", "resolution");
   ("payment", "financial terms")]%string.

(** [sum(risks_text.lower().count(kw) for kw in kw_pair)] *)
Definition pair_count (risks_text : str) (kw_pair : string * string) : Z :=
  sum (map (fun kw => Z.of_nat (count (lower risks_text) (lit kw)))
           [fst kw_pair; snd kw_pair]).

(** [f"{kw_pair[0]}/{kw_pair[1]}"] *)
Definition pair_label (kw_pair : string * string) : str :=
  lit (fst kw_pair) ++ lit "/" ++ lit (snd kw_pair).

(** The loop of lines 613-617. *)
Definition keyword_counts (risks_text : str) : list (str * Z) :=
  fold_left
    (fun keyword_counts kw_pair =>
       let count := pair_count risks_text kw_pair in
       if 0 <? count
       then keyword_counts ++ [(pair_label kw_pair, count)]
       else keyword_counts)
    risk_keywords [].

(** [keyword_counts.sort(key=lambda x: x[1], reverse=True)]: the sort is
    stable, entries with the same count keep their order, which fixes
    the result.  An entry goes in front of the first entry that does not
    have a larger count. *)
Fixpoint insert_by_count (x : str * Z) (l : list (str * Z))
    : list (str * Z) :=
  match l with
  | [] => [x]
  | y :: rest =>
      if snd x <? snd y then y :: insert_by_count x rest else x :: l
  end.

Fixpoint sort_by_count (l : list (str * Z)) : list (str * Z) :=
  match l with
  | [] => []
  | x :: rest => insert_by_count x (sort_by_count rest)
  end.

(** [keyword_counts[:5]] after the sort: the entries written as
    [f"• {kw}: {count} mentions"]. *)
Definition top_risk_areas (risks_text : str) : list (str * Z) :=
  firstn 5 (sort_by_count (keyword_counts risks_text)).

(** The bars and percentages of lines 576-594: for each priority the
    value given to [st.progress] and the percentage written. *)
Record distribution : Type := {
  high_bar : float;   high_pct : Z;
  medium_bar : float; medium_pct : Z;
  low_bar : float;    low_pct : Z
}.

(** What [display_risk_visualizer] writes. *)
Inductive visual : Type :=
| NoRiskData
| Shown (level : severity) (overall_bar : float)
        (bars : option distribution) (top : list (str * Z))
| VisualError.

(** [display_risk_visualizer(risks_text)], lines 546-629; [None] of an
    operation is what it raises, and the [except] branch catches it.
    [min(score/100, 1.0)] is the smaller of the two fractions. *)
Definition display_risk_visualizer (risks_text : pyval) : visual :=
  if negb (py_truthy risks_text) || negb (isinstance_str risks_text)
  then NoRiskData
  else
    match risks_text, App.calculate_risk_score risks_text with
    | PyStr text, Some (score, high_count, medium_count, low_count) =>
        let level := if 70 <=? score then High
                     else if 40 <=? score then Medium else Low in
        match truediv score 100 with
        | None => VisualError
        | Some ratio =>
            let overall_bar :=
              if fst ratio * 1 <=? 1 * snd ratio then ratio else (1, 1) in
            let total := high_count + medium_count + low_count in
            if 0 <? total then
              match truediv high_count total, truediv medium_count total,
                    truediv high_count (Z.max total 1),
                    truediv medium_count (Z.max total 1),
                    truediv low_count (Z.max total 1) with
              | Some qh, Some qm, Some bh, Some bm, Some bl =>
                  let high_pct := to_int (mul_int qh 100) in
                  let medium_pct := to_int (mul_int qm 100) in
                  let low_pct := 100 - high_pct - medium_pct in
                  Shown level overall_bar
                        (Some {| high_bar := bh; high_pct := high_pct;
                                 medium_bar := bm; medium_pct := medium_pct;
                                 low_bar := bl; low_pct := low_pct |})
                        (top_risk_areas text)
              | _, _, _, _, _ => VisualError
              end
            else Shown level overall_bar None []
        end
    | _, _ => VisualError
    end.

End Visualizer.

(** A float between 0 and 1, the values [st.progress] accepts. *)
Definition in_unit_interval (x : float) : Prop :=
  0 <= fst x /\ fst x <= snd x /\ 0 < snd x.

(** Entries ordered by count, the largest first. *)
Definition by_count_desc (x y : str * Z) : Prop := snd y <= snd x.

(** ** app.py, the Word export

    The document is modelled by what [generate_docx] puts into it: the
    two core properties and, in order, the headings and paragraphs with
    their runs. *)

Module DocxExport.

Inductive alignment : Type := AlignDefault | AlignCenter.

Record run : Type := {
  run_text : str;
  run_bold : bool;
  run_italic : bool;
  run_color : option (Z * Z * Z)
}.

Inductive element : Type :=
| Heading (text : string) (level : Z) (align : alignment)
| Paragraph (runs : list run) (align : alignment).

Record document : Type := {
  doc_title : string;
  doc_author : string;
  doc_body : list element
}.

Inductive section : Type :=
| SummarySection
| RiskScoreSection
| RiskAnalysisSection.

(** [p.add_run(text)] with no attribute set. *)
Definition plain_run (text : str) : run :=
  {| run_text := text; run_bold := false; run_italic := false;
     run_color := None |}.

(** [line.split(":", 1)] for a line with a [":"]: what is before the
    first one and what is after it. *)
Fixpoint split_first (sep : ascii) (s : str) : str * str :=
  match s with
  | [] => ([], [])
  | c :: r =>
      if Ascii.eqb c sep then ([], r)
      else let '(before, after) := split_first sep r in (c :: before, after)
  end.

(** The run of the priority, lines 201-207. *)
Definition priority_run (priority : str) : run :=
  {| run_text := priority ++ lit ": ";
     run_bold := true;
     run_italic := false;
     run_color :=
       if contains (lit "high") (lower priority) then Some (255, 0, 0)
       else if contains (lit "medium") (lower priority)
            then Some (255, 165, 0)
            else None |}.

(** The state of the loop: [current_section] and the elements added to
    the document. *)
Definition docx_state := (option section * list element)%type.

Definition is_risk_analysis (current_section : option section) : bool :=
  match current_section with
  | Some RiskAnalysisSection => true
  | _ => false
  end.

(** One iteration of the loop, lines 170-213. *)
Definition docx_step (state : docx_state) (line : str) : docx_state :=
  let '(current_section, doc) := state in
  if contains (lit "DOCUMENT SUMMARY") line then
    (Some SummarySection,
     doc ++ [Paragraph [] AlignDefault;
             Heading "Document Summary" 2 AlignDefault])
  else if contains (lit "RISK SCORE") line then
    (Some RiskScoreSection,
     doc ++ [Paragraph [] AlignDefault;
             Heading "Risk Assessment Score" 2 AlignDefault])
  else if contains (lit "RISK ANALYSIS") line then
    (Some RiskAnalysisSection,
     doc ++ [Paragraph [] AlignDefault;
             Heading "Detailed Risk Analysis" 2 AlignDefault])
  else if truthy (strip line)
          && negb (startswith (lit "=") line)
          && negb (startswith (lit "-") line) then
    let runs :=
      if is_risk_analysis current_section then
        if (startswith (lit "high") (lower line)
            || startswith (lit "medium") (lower line)
            || startswith (lit "low") (lower line))
           && contains (lit ":") line
        then
          let '(priority, description) := split_first ":"%char line in
          let priority := strip priority in
          [priority_run priority; plain_run (strip description)]
        else [plain_run line]
      else [plain_run line] in
    (current_section, doc ++ [Paragraph runs AlignDefault])
  else state.

(** [generate_docx(content)], lines 141-224: the document saved into the
    buffer; [now] is [datetime.now().strftime('%Y-%m-%d %H:%M')]. *)
Definition generate_docx (now content : str) : document :=
  let doc :=
    [Heading "Legal Document Analysis Report" 1 AlignCenter;
     Paragraph [{| run_text := lit "Generated on: " ++ now;
                   run_bold := false; run_italic := true;
                   run_color := None |}] AlignCenter;
     Paragraph [plain_run (repeat "_"%char 60)] AlignDefault] in
  let lines := split_on TxtExport.newline content in
  let '(_, doc) := fold_left docx_step lines (None, doc) in
  {| doc_title := "Legal Document Analysis";
     doc_author := "AI Legal Document Assistant";
     doc_body := doc ++ [Paragraph [] AlignDefault;
                         Paragraph [plain_run (lit "End of Report")]
                                   AlignCenter] |}.

(** The first run of a paragraph starts with [c]. *)
Definition paragraph_starts_with (c : ascii) (e : element) : Prop :=
  match e with
  | Paragraph (first :: _) _ =>
      match run_text first with
      | c' :: _ => c' = c
      | [] => False
      end
  | _ => False
  end.

End DocxExport.

(** ** What the loop of [generate_docx] adds *)

Module DocxAdded.

Import DocxExport.

(** The elements one iteration adds. *)
Inductive added_by (line : str) : DocxExport.element -> Prop :=
| AddedSpacing : added_by line (Paragraph [] AlignDefault)
| AddedHeading (text : string) : added_by line (Heading text 2 AlignDefault)
| AddedLine :
    truthy (strip line) = true ->
    startswith (lit "=") line = false ->
    startswith (lit "-") line = false ->
    added_by line (Paragraph [plain_run line] AlignDefault)
| AddedPriority (priority description : str) :
    (startswith (lit "high") (lower priority) = true
     \/ startswith (lit "medium") (lower priority) = true
     \/ startswith (lit "low") (lower priority) = true) ->
    added_by line (Paragraph [priority_run priority; plain_run description]
                             AlignDefault).

End DocxAdded.

(** ** Lines and paragraphs of the Word export *)

Module DocxLines.

Import DocxExport.

(** The lines for which the loop of [generate_docx] adds a paragraph of
    text: they name no section, are not blank and start neither with
    ["="] nor with ["-"]. *)
Definition is_kept (line : str) : bool :=
  negb (contains (lit "DOCUMENT SUMMARY") line)
  && negb (contains (lit "RISK SCORE") line)
  && negb (contains (lit "RISK ANALYSIS") line)
  && (truthy (strip line)
      && negb (startswith (lit "=") line)
      && negb (startswith (lit "-") line)).

(** A paragraph with at least one run. *)
Definition has_text (e : element) : bool :=
  match e with
  | Paragraph (_ :: _) _ => true
  | _ => false
  end.

(** The elements [generate_docx] adds before and after its loop, lines
    154-164 and 216-218. *)
Definition docx_frame_ok (now : str) (e : element) : Prop :=
  e = Heading "Legal Document Analysis Report" 1 AlignCenter
  \/ e = Paragraph [{| run_text := lit "Generated on: " ++ now;
                       run_bold := false; run_italic := true;
                       run_color := None |}] AlignCenter
  \/ e = Paragraph [plain_run (repeat "_"%char 60)] AlignDefault
  \/ e = Paragraph [] AlignDefault
  \/ e = Paragraph [plain_run (lit "End of Report")] AlignCenter.

End DocxLines.

(** ** utils.py and gdpr_compliance.py: the session state

    [st.session_state] is modelled as the list of its keys with their
    values, in the order of insertion: the keys the code assigns, and the
    keys of the widgets it creates with a [key] argument, under which
    Streamlit stores the value of the widget. *)

Module Session.

Inductive value : Type :=
| VNone
| VBool (b : bool)
| VInt (n : Z)
| VStr (s : str)
| VList (items : list (str * str)).

(** [bool(v)] *)
Definition truthy_value (v : value) : bool :=
  match v with
  | VNone => false
  | VBool b => b
  | VInt n => negb (n =? 0)
  | VStr s => truthy s
  | VList items => truthy items
  end.

Definition session := list (string * value).

(** [st.session_state.get(key)]; an attribute read of a missing key
    raises, which the functions below render as [None]. *)
Fixpoint lookup (key : string) (s : session) : option value :=
  match s with
  | [] => None
  | (k, v) :: rest => if String.eqb k key then Some v else lookup key rest
  end.

(** [key in st.session_state] *)
Definition mem (key : string) (s : session) : bool :=
  match lookup key s with Some _ => true | None => false end.

(** [st.session_state.key = v] *)
Fixpoint set (key : string) (v : value) (s : session) : session :=
  match s with
  | [] => [(key, v)]
  | (k, w) :: rest =>
      if String.eqb k key then (k, v) :: rest else (k, w) :: set key v rest
  end.

(** [if key not in st.session_state: st.session_state.key = v] *)
Definition set_default (key : string) (v : value) (s : session) : session :=
  if negb (mem key s) then set key v s else s.

(** The keys and values of [initialize_session_state], in its order. *)
Definition defaults : list (string * value) :=
  [("extracted_text", VNone);
   ("summary", VNone);
   ("risks", VNone);
   ("chat_history", VList []);
   ("gdpr_consent", VBool false);
   ("show_gdpr_banner", VBool true);
   ("show_privacy_policy", VBool false)]%string.

(** [initialize_session_state()], utils.py lines 3-19. *)
Definition initialize_session_state (s : session) : session :=
  fold_left (fun s kv => set_default (fst kv) (snd kv) s) defaults s.

(** How a call of one of the functions of gdpr_compliance.py ends:
    with an exception, with [st.rerun()], or with a return, of a value
    or of nothing. *)
Inductive outcome : Type :=
| Raised
| Rerun (s : session)
| Returned (banner_shown : bool) (result : option bool) (s : session).

(** [st.button(label, key=key)] for a button that is pressed or not: the
    call stores the value it returns under [key]. *)
Definition keyed_button (key : string) (pressed : bool) (s : session)
    : session :=
  set key (VBool pressed) s.

(** [show_gdpr_consent_banner()], gdpr_compliance.py lines 158-216, for
    the two buttons of the banner pressed or not.  The first button has
    no key; the second one is created with [key="gdpr_accept"], once the
    first has not ended the run. *)
Definition show_gdpr_consent_banner (view_policy accept : bool)
    (s : session) : outcome :=
  match lookup "gdpr_consent" s with
  | None => Raised
  | Some consent =>
      if negb (truthy_value consent) then
        match lookup "show_gdpr_banner" s with
        | None => Raised
        | Some banner =>
            if truthy_value banner then
              if view_policy
              then Rerun (set "show_privacy_policy" (VBool true) s)
              else
                let s := keyed_button "gdpr_accept" accept s in
                if accept
                then Rerun (set "show_gdpr_banner" (VBool false)
                              (set "gdpr_consent" (VBool true) s))
                else Returned true (Some true) s
            else Returned false (Some true) s
        end
      else Returned false (Some true) s
  end.

(** [add_privacy_policy_footer()], lines 218-236, for its button, which
    is created with [key="footer_privacy"]. *)
Definition add_privacy_policy_footer (view_policy : bool) (s : session)
    : outcome :=
  let s := keyed_button "footer_privacy" view_policy s in
  if view_policy then Rerun (set "show_privacy_policy" (VBool true) s)
  else Returned false None s.

(** [show_privacy_policy()], lines 238-261, for its button, which has no
    key. *)
Definition show_privacy_policy (back : bool) (s : session) : outcome :=
  if back then Rerun (set "show_privacy_policy" (VBool false) s)
  else Returned false None s.

(** The session an outcome leaves, if it is no exception. *)
Definition session_after (o : outcome) : option session :=
  match o with
  | Raised => None
  | Rerun s => Some s
  | Returned _ _ s => Some s
  end.

(** [st.session_state.gdpr_consent] holds a true value. *)
Definition consent_given (s : session) : Prop :=
  exists v, lookup "gdpr_consent" s = Some v /\ truthy_value v = true.

End Session.

(** * Properties *)

(** ** Lower-casing commutes with the segmentation *)

Section Lowering.

Local Ltac all_chars c :=
  destruct c as [[] [] [] [] [] [] [] []]; reflexivity.

Lemma lower_char_dot (c : ascii) :
  Ascii.eqb (lower_char c) dot = Ascii.eqb c dot.
Proof. all_chars c. Qed.

Lemma lower_char_space (c : ascii) : is_space (lower_char c) = is_space c.
Proof. all_chars c. Qed.

Lemma lower_length (s : str) : List.length (lower s) = List.length s.
Proof. apply length_map. Qed.

Lemma lower_app (s t : str) : lower (s ++ t) = lower s ++ lower t.
Proof. apply map_app. Qed.

Lemma split_on_lower (s : str) :
  split_on dot (lower s) = map lower (split_on dot s).
Proof.
  induction s as [|c r IH]; simpl; [reflexivity|].
  rewrite lower_char_dot, IH.
  destruct (Ascii.eqb c dot); [reflexivity|].
  destruct (split_on dot r); reflexivity.
Qed.

Lemma lstrip_lower (s : str) : lstrip (lower s) = lower (lstrip s).
Proof.
  induction s as [|c r IH]; simpl; [reflexivity|].
  rewrite lower_char_space.
  destruct (is_space c); [exact IH | reflexivity].
Qed.

Lemma rstrip_lower (s : str) : rstrip (lower s) = lower (rstrip s).
Proof.
  induction s as [|c r IH]; simpl; [reflexivity|].
  fold (lower r). rewrite IH.
  destruct (rstrip r); simpl.
  - rewrite lower_char_space. destruct (is_space c); reflexivity.
  - reflexivity.
Qed.

Lemma strip_lower (s : str) : strip (lower s) = lower (strip s).
Proof. unfold strip. now rewrite lstrip_lower, rstrip_lower. Qed.

Lemma truthy_map {A B : Type} (f : A -> B) (l : list A) :
  truthy (map f l) = truthy l.
Proof. destruct l; reflexivity. Qed.

Lemma filter_map_commute {A B : Type} (f : A -> B) (p : B -> bool)
    (l : list A) :
  filter p (map f l) = map f (filter (fun x => p (f x)) l).
Proof.
  induction l as [|x l IH]; simpl; [reflexivity|].
  rewrite IH. destruct (p (f x)); reflexivity.
Qed.

Lemma sentences_of_lower (text : str) :
  sentences_of (lower text) = map lower (sentences_of text).
Proof.
  unfold sentences_of.
  rewrite split_on_lower, filter_map_commute, !map_map.
  rewrite (filter_ext (fun x => truthy (strip (lower x)))
                      (fun s => truthy (strip s))).
  - apply map_ext. intro s. apply strip_lower.
  - intro s. rewrite strip_lower. apply truthy_map.
Qed.

Lemma split_ws_lower (s : str) : split_ws (lower s) = map lower (split_ws s).
Proof.
  induction s as [|c r IH]; [reflexivity|].
  cbn [lower map split_ws]. fold (lower r).
  rewrite lower_char_space.
  destruct (is_space c); [exact IH|].
  destruct r as [|d r']; [reflexivity|].
  cbn [lower map]. fold (lower r').
  rewrite lower_char_space.
  change (lower_char d :: lower r') with (lower (d :: r')).
  rewrite IH.
  destruct (is_space d); [reflexivity|].
  destruct (split_ws (d :: r')); reflexivity.
Qed.

Lemma word_count_lower (s : str) : word_count (lower s) = word_count s.
Proof. unfold word_count. now rewrite split_ws_lower, length_map. Qed.

End Lowering.

(** ** The categorising loop as three filters *)

Section Categorising.

Variables high_kw medium_kw : list str.

Local Abbreviation is_high := (goes_high high_kw).
Local Abbreviation is_medium := (goes_medium high_kw medium_kw).
Local Abbreviation is_low := (goes_low high_kw medium_kw).

Lemma categorize_fold (sentences hs ms ls : list str) :
  fold_left (categorize_step high_kw medium_kw) sentences (hs, ms, ls)
  = (hs ++ filter is_high sentences,
     ms ++ filter is_medium sentences,
     ls ++ filter is_low sentences).
Proof.
  revert hs ms ls.
  induction sentences as [|s r IH]; intros hs ms ls; simpl.
  - now rewrite !app_nil_r.
  - unfold goes_medium, goes_low, goes_high.
    destruct (any_in high_kw (lower s)); simpl.
    + rewrite IH, <- app_assoc. reflexivity.
    + destruct (any_in medium_kw (lower s)); simpl.
      * rewrite IH, <- app_assoc. reflexivity.
      * destruct (5 <? word_count s); simpl.
        -- rewrite IH, <- app_assoc. reflexivity.
        -- apply IH.
Qed.

Lemma categorize_loop_filter (sentences : list str) :
  categorize_loop high_kw medium_kw sentences
  = (filter is_high sentences, filter is_medium sentences,
     filter is_low sentences).
Proof. unfold categorize_loop. now rewrite categorize_fold. Qed.

Lemma categorize_loop_app (s1 s2 : list str) :
  categorize_loop high_kw medium_kw (s1 ++ s2)
  = let '(h1, m1, l1) := categorize_loop high_kw medium_kw s1 in
    let '(h2, m2, l2) := categorize_loop high_kw medium_kw s2 in
    (h1 ++ h2, m1 ++ m2, l1 ++ l2).
Proof. rewrite !categorize_loop_filter, !filter_app. reflexivity. Qed.

(** Every sentence lands in at most one list. *)
Lemma categorize_lengths (sentences : list str) :
  (List.length (filter is_high sentences)
   + List.length (filter is_medium sentences)
   + List.length (filter is_low sentences)
   <= List.length sentences)%nat.
Proof.
  induction sentences as [|s r IH]; cbn [filter]; [cbn; lia|].
  unfold goes_medium, goes_low in *.
  destruct (is_high s), (any_in medium_kw (lower s)),
    (5 <? word_count s); cbn [negb andb List.length]; lia.
Qed.

End Categorising.

(** ** Counting *)

Lemma count_if_length (p : str -> bool) (l : list str) :
  count_if p l = Z.of_nat (List.length (filter p l)).
Proof.
  unfold count_if.
  induction (filter p l) as [|x r IH]; [reflexivity|].
  cbn [map sum fold_right List.length].
  fold (sum (map (fun _ : str => 1) r)). rewrite IH. lia.
Qed.

Lemma count_if_nonneg (p : str -> bool) (l : list str) : 0 <= count_if p l.
Proof. rewrite count_if_length. lia. Qed.

Lemma count_if_ext_in (p q : str -> bool) (l : list str) :
  (forall s, In s l -> p s = q s) -> count_if p l = count_if q l.
Proof.
  intro H. rewrite !count_if_length.
  now rewrite (filter_ext_in p q l H).
Qed.

Lemma sum_of_nat_nonneg {A : Type} (f : A -> nat) (l : list A) :
  0 <= sum (map (fun x => Z.of_nat (f x)) l).
Proof.
  induction l as [|x r IH]; simpl; [lia|].
  fold (sum (map (fun x => Z.of_nat (f x)) r)). lia.
Qed.

Lemma firstn_cap {A : Type} (l : list A) (k : Z) :
  0 <= k ->
  firstn (Z.to_nat (Z.min (Z.of_nat (List.length l)) k)) l
  = firstn (Z.to_nat k) l.
Proof.
  intro Hk.
  destruct (Z.le_ge_cases (Z.of_nat (List.length l)) k) as [H|H].
  - rewrite Z.min_l by assumption.
    rewrite Nat2Z.id, firstn_all, firstn_all2; [reflexivity | lia].
  - rewrite Z.min_r by lia. reflexivity.
Qed.

Lemma split_on_nonempty (sep : ascii) (s : str) : split_on sep s <> [].
Proof.
  destruct s as [|c r]; simpl; [discriminate|].
  destruct (Ascii.eqb c sep); [discriminate|].
  destruct (split_on sep r); discriminate.
Qed.

Lemma split_on_app (sep : ascii) (p s : str) :
  split_on sep (p ++ sep :: s) = split_on sep p ++ split_on sep s.
Proof.
  induction p as [|c r IH]; simpl.
  - now rewrite Ascii.eqb_refl.
  - rewrite IH.
    destruct (Ascii.eqb c sep); [reflexivity|].
    pose proof (split_on_nonempty sep r) as Hne.
    destruct (split_on sep r); [contradiction | reflexivity].
Qed.

Lemma sentences_of_app (p s : str) :
  sentences_of (p ++ dot :: s) = sentences_of p ++ sentences_of s.
Proof.
  unfold sentences_of. now rewrite split_on_app, filter_app, map_app.
Qed.

Lemma sentences_of_bound (text : str) :
  (List.length (sentences_of text) <= List.length (split_on dot text))%nat.
Proof.
  unfold sentences_of. rewrite length_map. apply filter_length_le.
Qed.

(** ** Substrings *)

Lemma startswith_app (w v s : str) :
  startswith (w ++ v) s = true -> startswith w s = true.
Proof.
  revert s. induction w as [|a w IH]; intros s H; [reflexivity|].
  destruct s as [|b s]; simpl in *; [discriminate|].
  apply andb_true_iff in H as [H1 H2].
  rewrite H1. simpl. now apply IH.
Qed.

Lemma contains_app (w v s : str) :
  contains (w ++ v) s = true -> contains w s = true.
Proof.
  induction s as [|b s IH]; simpl; intro H.
  - apply orb_true_iff in H as [H|H]; [|discriminate].
    apply startswith_app in H. now rewrite H.
  - apply orb_true_iff in H as [H|H].
    + apply startswith_app in H. now rewrite H.
    + rewrite (IH H). apply orb_true_r.
Qed.

(** ** The float arithmetic stays non-negative *)

Lemma rne_nonneg (n d : Z) : 0 <= n -> 0 < d -> 0 <= rne n d.
Proof.
  intros Hn Hd. unfold rne.
  pose proof (Z.div_pos n d Hn Hd).
  destruct (2 * (n mod d) <? d); [assumption|].
  destruct (d <? 2 * (n mod d)); [lia|].
  destruct (Z.even (n / d)); lia.
Qed.

Lemma scaled_pos (n d e : Z) :
  0 < n -> 0 < d -> 0 < fst (scaled n d e) /\ 0 < snd (scaled n d e).
Proof.
  intros Hn Hd. unfold scaled.
  destruct (0 <=? e) eqn:He; simpl.
  - apply Z.leb_le in He. split; [assumption|].
    apply Z.mul_pos_pos; [assumption|]. now apply Z.pow_pos_nonneg.
  - apply Z.leb_gt in He. split; [|assumption].
    apply Z.mul_pos_pos; [assumption|].
    apply Z.pow_pos_nonneg; lia.
Qed.

Lemma round53_sound (n d : Z) :
  0 < d -> 0 <= fst (round53 n d) /\ 0 < snd (round53 n d).
Proof.
  intro Hd. unfold round53.
  destruct (n <=? 0) eqn:Hn; [simpl; lia|].
  apply Z.leb_gt in Hn.
  set (e := let '(a, b) := scaled n d (Z.log2 n - Z.log2 d - 52) in
            if a / b <? 2 ^ 52
            then Z.log2 n - Z.log2 d - 52 - 1
            else Z.log2 n - Z.log2 d - 52).
  destruct (scaled_pos n d e Hn Hd) as [Ha Hb].
  destruct (scaled n d e) as [a b]; simpl in Ha, Hb.
  assert (Hm : 0 <= rne a b) by (apply rne_nonneg; lia).
  destruct (0 <=? e) eqn:He; simpl.
  - apply Z.leb_le in He. split; [|lia].
    apply Z.mul_nonneg_nonneg; [assumption|]. apply Z.pow_nonneg. lia.
  - apply Z.leb_gt in He. split; [assumption|].
    apply Z.pow_pos_nonneg; lia.
Qed.

Lemma round_mul_int_nonneg (x : float) (k : Z) :
  0 < snd x -> 0 <= round (mul_int x k).
Proof.
  intro Hx. unfold round, mul_int.
  destruct (round53_sound (fst x * k) (snd x) Hx) as [Ha Hb].
  now apply rne_nonneg.
Qed.

Lemma truediv_some (a b : Z) :
  b <> 0 -> truediv a b = Some (round53 a b).
Proof.
  intro Hb. unfold truediv.
  destruct (b =? 0) eqn:E; [apply Z.eqb_eq in E; contradiction | reflexivity].
Qed.

(** ** The score and the counts of the two scoring functions *)

Lemma spec_score_bounds (h m l : Z) :
  0 <= h -> 0 <= m -> 0 <= l -> 0 <= Spec.score h m l <= 100.
Proof.
  intros Hh Hm Hl. unfold Spec.score.
  destruct (h + m + l =? 0) eqn:E; [lia|].
  apply Z.eqb_neq in E.
  assert (Hpos : 0 < h + m + l) by lia.
  pose proof (round53_sound (h * 3 + m * 2 + l * 1) _ Hpos) as [_ Hd].
  pose proof (round_mul_int_nonneg _ 20 Hd).
  lia.
Qed.

(** [calculate_risk_score] never raises, returns non-negative counts, and
    its score is the formula of the specification on these counts. *)
Lemma calculate_risk_score_shape (v : pyval) :
  exists h m l,
    0 <= h /\ 0 <= m /\ 0 <= l /\
    App.calculate_risk_score v = Some (Spec.score h m l, h, m, l).
Proof.
  assert (Z0 : exists h m l,
             0 <= h /\ 0 <= m /\ 0 <= l /\
             Some (0, 0, 0, 0) = Some (Spec.score h m l, h, m, l)).
  { exists 0, 0, 0. repeat split; lia. }
  unfold App.calculate_risk_score.
  destruct v as [| b | n | text]; cbn [py_truthy isinstance_str negb orb];
    try (destruct b); try (destruct (negb (n =? 0))); try exact Z0.
  destruct (truthy text); cbn [negb orb]; [|exact Z0].
  cbv zeta.
  set (sample := firstn _ (lower text)).
  set (h := sum (map _ (words ["critical"; "severe"; "high"]%string))).
  set (m := sum (map _ (words ["moderate"; "medium"]%string))).
  set (l := Z.max 0 _).
  assert (Hh : 0 <= h) by apply sum_of_nat_nonneg.
  assert (Hm : 0 <= m) by apply sum_of_nat_nonneg.
  assert (Hl : 0 <= l) by apply Z.le_max_l.
  destruct (h + m + l =? 0) eqn:E.
  - apply Z.eqb_eq in E.
    assert (h = 0 /\ m = 0 /\ l = 0) as (-> & -> & ->) by lia.
    exact Z0.
  - apply Z.eqb_neq in E.
    rewrite truediv_some by lia.
    exists h, m, l. repeat split; try assumption.
    unfold Spec.score.
    destruct (h + m + l =? 0) eqn:E'; [apply Z.eqb_eq in E'; contradiction|].
    rewrite Z.max_l by lia. rewrite Z.mul_1_r. reflexivity.
Qed.

(** [calculate_risk_counts] never raises, returns non-negative counts, and
    its score divides by [total * 3] and scales by 100. *)
Lemma calculate_risk_counts_shape (text : str) :
  exists h m l,
    0 <= h /\ 0 <= m /\ 0 <= l /\
    EmailService.calculate_risk_counts text
    = Some (if h + m + l =? 0 then 0
            else Z.min 100
                   (round (mul_int (round53 (h * 3 + m * 2 + l)
                                            ((h + m + l) * 3))
                                   100)),
            h, m, l).
Proof.
  unfold EmailService.calculate_risk_counts. cbv zeta.
  set (h := count_if _ _).
  set (m := count_if (any_in (words ["moderate"; "medium"; "potential";
                                     "concerning"]%string)) _).
  set (l := count_if (fun s => (5 <? word_count s) && _) _).
  assert (Hh : 0 <= h) by apply count_if_nonneg.
  assert (Hm : 0 <= m) by apply count_if_nonneg.
  assert (Hl : 0 <= l) by apply count_if_nonneg.
  destruct (h + m + l =? 0) eqn:E.
  - apply Z.eqb_eq in E.
    assert (h = 0 /\ m = 0 /\ l = 0) as (-> & -> & ->) by lia.
    exists 0, 0, 0. repeat split; lia.
  - assert (Hne : h + m + l <> 0) by now apply Z.eqb_neq.
    rewrite truediv_some by lia.
    exists h, m, l. rewrite E. repeat split; assumption.
Qed.

(** C3, as the code has it: at [calculate_risk_score] the score is
    [min(100, round((high*3 + medium*2 + low) / total * 20))] on the
    returned counts, and 0 when their total is 0; at
    [calculate_risk_counts] the weights and the cap are the same but the
    weighted sum is divided by [total * 3] and scaled by 100. *)
Theorem score_formula_per_call_site :
  (forall v : pyval, exists h m l,
      App.calculate_risk_score v = Some (Spec.score h m l, h, m, l))
  /\
  (forall text : str, exists h m l,
      EmailService.calculate_risk_counts text
      = Some (if h + m + l =? 0 then 0
              else Z.min 100
                     (round (mul_int (round53 (h * 3 + m * 2 + l)
                                              ((h + m + l) * 3))
                                     100)),
              h, m, l)).
Proof.
  split.
  - intro v.
    destruct (calculate_risk_score_shape v) as (h & m & l & _ & _ & _ & E).
    now exists h, m, l.
  - intro text.
    destruct (calculate_risk_counts_shape text)
      as (h & m & l & _ & _ & _ & E).
    now exists h, m, l.
Qed.

(** C3 as stated fails at the e-mail call site: on the text ["critical"]
    [calculate_risk_counts] returns the score 100 for the counts 1, 0, 0,
    where the formula gives 60. *)
Lemma score_formula_counterexample :
  ~ (forall (text : str) (s h m l : Z),
        EmailService.calculate_risk_counts text = Some (s, h, m, l) ->
        s = Spec.score h m l).
Proof.
  intro H.
  specialize (H (lit "critical") 100 1 0 0 eq_refl).
  vm_compute in H. discriminate H.
Qed.

(** C5: both scoring functions return, for every input, a score between
    0 and 100 and three non-negative counts. *)
Theorem score_and_counts_in_range :
  (forall v : pyval, exists s h m l,
      App.calculate_risk_score v = Some (s, h, m, l)
      /\ 0 <= s <= 100 /\ 0 <= h /\ 0 <= m /\ 0 <= l)
  /\
  (forall text : str, exists s h m l,
      EmailService.calculate_risk_counts text = Some (s, h, m, l)
      /\ 0 <= s <= 100 /\ 0 <= h /\ 0 <= m /\ 0 <= l).
Proof.
  split.
  - intro v.
    destruct (calculate_risk_score_shape v)
      as (h & m & l & Hh & Hm & Hl & E).
    exists (Spec.score h m l), h, m, l.
    pose proof (spec_score_bounds h m l Hh Hm Hl). tauto.
  - intro text.
    destruct (calculate_risk_counts_shape text)
      as (h & m & l & Hh & Hm & Hl & E).
    eexists _, h, m, l. split; [exact E|].
    repeat split; try assumption.
    + destruct (h + m + l =? 0) eqn:E0; [lia|].
      apply Z.eqb_neq in E0.
      assert (Hpos : 0 < (h + m + l) * 3) by lia.
      pose proof (round53_sound (h * 3 + m * 2 + l) _ Hpos) as [_ Hd].
      pose proof (round_mul_int_nonneg _ 100 Hd). lia.
    + destruct (h + m + l =? 0); lia.
Qed.

(** ** The worked example *)

(** C2, as the code has it: on the example text both classifiers find one
    HIGH clause, one MEDIUM clause and no LOW clause;
    [calculate_risk_score] returns the score 40 with the counts 1, 1, 1
    (the empty piece after the last full stop counts as low) and
    [calculate_risk_counts] the score 83 with the counts 1, 1, 0. *)
Theorem vendor_text_scores :
  EmailService.categorize_risks Spec.vendor_text
  = ([lit "The vendor shall indemnify against all critical liabilities"],
     [lit "There is a moderate compliance gap noted here today"],
     [])
  /\ App.display_risks_with_filters (PyStr Spec.vendor_text)
     = EmailService.categorize_risks Spec.vendor_text
  /\ App.calculate_risk_score (PyStr Spec.vendor_text) = Some (40, 1, 1, 1)
  /\ EmailService.calculate_risk_counts Spec.vendor_text
     = Some (83, 1, 1, 0).
Proof. repeat split; vm_compute; reflexivity. Qed.

(** C2 as stated fails: neither scoring function returns the score 50
    with the counts 1, 1, 0 on the example text. *)
Lemma vendor_text_counterexample :
  App.calculate_risk_score (PyStr Spec.vendor_text) <> Some (50, 1, 1, 0)
  /\ EmailService.calculate_risk_counts Spec.vendor_text
     <> Some (50, 1, 1, 0).
Proof. split; vm_compute; discriminate. Qed.

(** ** Empty and non-string input *)

(** C9: on an input that is empty or not a string, [calculate_risk_score]
    returns the zero tuple, [display_risks_with_filters] lists no finding
    and [prepare_email_content] returns a content with no count and no
    finding; none of them raises.  [calculate_risk_score] raises on no
    input at all, and the two functions behind the string guard of
    [prepare_email_content] return zero counts and empty lists on the
    empty string. *)
Theorem scoring_fails_softly :
  (forall v : pyval,
      v = PyStr [] \/ isinstance_str v = false ->
      App.calculate_risk_score v = Some (0, 0, 0, 0)
      /\ App.display_risks_with_filters v = ([], [], [])
      /\ forall include_risk_score include_risks : bool,
          exists content,
            EmailService.prepare_email_content
              include_risk_score include_risks v = Some content
            /\ forall sev,
                EmailService.printed_count sev content = None
                /\ EmailService.listed_count sev content = 0)
  /\ (forall v : pyval, App.calculate_risk_score v <> None)
  /\ EmailService.calculate_risk_counts [] = Some (0, 0, 0, 0)
  /\ EmailService.categorize_risks [] = ([], [], []).
Proof.
  split; [|split; [|split; reflexivity]].
  - intros v [-> | Hv].
    + split; [reflexivity|]. split; [reflexivity|].
      intros [] []; eexists; (split; [reflexivity|]);
        intros []; split; reflexivity.
    + destruct v as [| b | n | text]; [| | | discriminate Hv].
      * split; [reflexivity|]. split; [reflexivity|].
        intros [] []; eexists; (split; [reflexivity|]);
          intros []; split; reflexivity.
      * split; [destruct b; reflexivity|].
        split; [destruct b; reflexivity|].
        intros [] []; destruct b; eexists; (split; [reflexivity|]);
          intros []; split; reflexivity.
      * unfold App.calculate_risk_score, App.display_risks_with_filters,
          EmailService.prepare_email_content,
          EmailService.risk_score_section,
          EmailService.risk_analysis_section.
        cbn [py_truthy isinstance_str].
        split; [destruct (negb (n =? 0)); reflexivity|].
        split; [destruct (negb (n =? 0)); reflexivity|].
        intros [] []; destruct (negb (n =? 0)); eexists;
          (split; [reflexivity|]); intros []; split; reflexivity.
  - intros v Hnone.
    destruct (calculate_risk_score_shape v) as (h & m & l & _ & _ & _ & E).
    congruence.
Qed.

Lemma scoring_fails_softly_witness :
  App.calculate_risk_score PyNone = Some (0, 0, 0, 0)
  /\ App.calculate_risk_score (PyStr []) = Some (0, 0, 0, 0)
  /\ App.display_risks_with_filters (PyInt 7) = ([], [], []).
Proof.
  split; [|split].
  - apply (proj1 scoring_fails_softly PyNone). right. reflexivity.
  - apply (proj1 scoring_fails_softly (PyStr [])). left. reflexivity.
  - apply (proj1 scoring_fails_softly (PyInt 7)). right. reflexivity.
Defined.

(** ** The address check *)

Lemma contains_char (c : ascii) (s : str) :
  contains [c] s = true <-> In c s.
Proof.
  induction s as [|b s IH]; simpl.
  - split; [discriminate | contradiction].
  - rewrite orb_true_iff, andb_true_r, IH, Ascii.eqb_eq.
    split; intros [H|H]; auto.
Qed.

(** C10: [validate_email] accepts exactly the non-empty strings with an
    ["@"] and a ["."] somewhere, so [".@"] passes and ["user@hostcom"]
    does not; the send button looks at the recipient through this check
    only, and attempts a send only when it holds. *)
Theorem validate_email_spec :
  (forall email : str,
      EmailService.validate_email email = true
      <-> email <> [] /\ In "@"%char email /\ In "."%char email)
  /\ EmailService.validate_email (lit ".@") = true
  /\ EmailService.validate_email (lit "user@hostcom") = false
  /\ (forall recipient (a b c : bool),
        EmailService.send_button recipient a b c
        = EmailService.SendAttempted ->
        EmailService.validate_email recipient = true)
  /\ (forall r1 r2 (a b c : bool),
        EmailService.validate_email r1 = EmailService.validate_email r2 ->
        EmailService.send_button r1 a b c
        = EmailService.send_button r2 a b c).
Proof.
  split; [|split; [reflexivity|split; [reflexivity|split]]].
  - intro email. unfold EmailService.validate_email.
    change (lit "@") with ["@"%char]. change (lit ".") with ["."%char].
    rewrite <- !contains_char.
    destruct email as [|c r]; cbn [truthy negb].
    + split; [discriminate | intros [H _]; now contradiction H].
    + destruct (contains ["@"%char] (c :: r)),
        (contains ["."%char] (c :: r)); cbn [negb orb];
        split; try discriminate; try tauto.
      intros _. repeat split. discriminate.
  - intros recipient a b c. unfold EmailService.send_button.
    destruct (EmailService.validate_email recipient);
      [reflexivity | discriminate].
  - intros r1 r2 a b c H. unfold EmailService.send_button.
    now rewrite H.
Qed.

Lemma validate_email_witness :
  EmailService.validate_email (lit "a@b.c") = true
  /\ EmailService.send_button (lit "a@b.c") true false false
     = EmailService.send_button (lit ".@") true false false.
Proof.
  split.
  - apply (proj1 validate_email_spec (lit "a@b.c")).
    split; [discriminate|].
    split; vm_compute; tauto.
  - apply (proj2 (proj2 (proj2 (proj2 validate_email_spec)))).
    reflexivity.
Defined.

(** ** Which list a clause lands in *)

Section Membership.

Variables high_kw medium_kw : list str.

Lemma high_clause (sentences : list str) (s : str) :
  In s sentences ->
  any_in high_kw (lower s) = true ->
  let '(hs, ms, ls) := categorize_loop high_kw medium_kw sentences in
  In s hs /\ ~ In s ms /\ ~ In s ls.
Proof.
  intros Hin Hhigh. rewrite categorize_loop_filter.
  rewrite !filter_In.
  unfold goes_medium, goes_low, goes_high. rewrite Hhigh.
  cbn [negb andb].
  repeat split; try assumption; intros [_ H]; discriminate H.
Qed.

Lemma plain_clause (sentences : list str) (s : str) :
  In s sentences ->
  any_in high_kw (lower s) = false ->
  any_in medium_kw (lower s) = false ->
  let '(hs, ms, ls) := categorize_loop high_kw medium_kw sentences in
  (In s ls <-> 5 < word_count s) /\ ~ In s hs /\ ~ In s ms.
Proof.
  intros Hin Hhigh Hmed. rewrite categorize_loop_filter.
  rewrite !filter_In.
  unfold goes_medium, goes_low, goes_high. rewrite Hhigh, Hmed.
  cbn [negb andb]. rewrite Z.ltb_lt.
  repeat split; try tauto; intros [_ H]; discriminate H.
Qed.

End Membership.

Lemma display_risks_as_loop (text : str) :
  App.display_risks_with_filters (PyStr text)
  = categorize_loop App.high_risk_keywords App.medium_risk_keywords
      (sentences_of text).
Proof.
  unfold App.display_risks_with_filters.
  destruct text as [|c r]; [reflexivity|].
  cbn [py_truthy isinstance_str truthy negb orb].
  destruct (sentences_of (c :: r)); reflexivity.
Qed.

(** C6, as the code has it: in both classifiers a clause with one of the
    classifier's own HIGH keywords is listed as HIGH and in no other list,
    whatever MEDIUM keywords it also has; the keyword "critical" is in
    both HIGH lists. *)
Theorem high_keywords_take_priority (text s : str) :
  In s (sentences_of text) ->
  (any_in (words ["critical"; "severe"; "high"]%string) (lower s) = true ->
   let '(hs, ms, ls) := EmailService.categorize_risks text in
   In s hs /\ ~ In s ms /\ ~ In s ls)
  /\
  (any_in App.high_risk_keywords (lower s) = true ->
   let '(hs, ms, ls) := App.display_risks_with_filters (PyStr text) in
   In s hs /\ ~ In s ms /\ ~ In s ls)
  /\
  (contains (lit "critical") (lower s) = true ->
   any_in (words ["critical"; "severe"; "high"]%string) (lower s) = true
   /\ any_in App.high_risk_keywords (lower s) = true).
Proof.
  intro Hin. split; [|split].
  - intro Hhigh. unfold EmailService.categorize_risks.
    now apply high_clause.
  - intro Hhigh. rewrite display_risks_as_loop.
    now apply high_clause.
  - intro Hc.
    unfold App.high_risk_keywords.
    cbn [any_in words map existsb]. rewrite Hc. split; reflexivity.
Qed.

Lemma high_keywords_take_priority_witness :
  let s := lit "This is a critical and moderate issue" in
  contains (lit "moderate") (lower s) = true
  /\ EmailService.categorize_risks
       (lit "This is a critical and moderate issue.") = ([s], [], [])
  /\ (let '(hs, ms, ls) :=
        App.display_risks_with_filters
          (PyStr (lit "This is a critical and moderate issue.")) in
      In s hs /\ ~ In s ms /\ ~ In s ls).
Proof.
  split; [reflexivity|]. split; [reflexivity|].
  apply (high_keywords_take_priority
           (lit "This is a critical and moderate issue.")
           (lit "This is a critical and moderate issue")).
  - left. reflexivity.
  - reflexivity.
Defined.

(** C6 as stated fails for the HIGH keywords that only one classifier
    checks: [categorize_risks] does not look for "significant" and lists
    the clause "A significant and moderate issue" as MEDIUM;
    [display_risks_with_filters] does not look for "high" alone and lists
    the clause "A high and moderate issue" as MEDIUM. *)
Lemma high_keywords_counterexample :
  ~ (forall text s : str,
        In s (sentences_of text) ->
        any_in Spec.high_keywords (lower s) = true ->
        let '(hs, ms, ls) := EmailService.categorize_risks text in
        In s hs /\ ~ In s ms)
  /\ ~ (forall text s : str,
           In s (sentences_of text) ->
           any_in Spec.high_keywords (lower s) = true ->
           let '(hs, ms, ls) :=
             App.display_risks_with_filters (PyStr text) in
           In s hs /\ ~ In s ms).
Proof.
  split; intro H.
  - specialize (H (lit "A significant and moderate issue.")
                  (lit "A significant and moderate issue")
                  (or_introl eq_refl) eq_refl).
    change (EmailService.categorize_risks
              (lit "A significant and moderate issue."))
      with (([] : list str), [lit "A significant and moderate issue"],
            ([] : list str)) in H.
    destruct H as [[] _].
  - specialize (H (lit "A high and moderate issue.")
                  (lit "A high and moderate issue")
                  (or_introl eq_refl) eq_refl).
    change (App.display_risks_with_filters
              (PyStr (lit "A high and moderate issue.")))
      with (([] : list str), [lit "A high and moderate issue"],
            ([] : list str)) in H.
    destruct H as [[] _].
Qed.

(** C7: in both classifiers a clause with none of the classifier's HIGH
    and MEDIUM keywords is listed as LOW exactly when it has more than 5
    whitespace-delimited words, and is in neither other list; with 5
    words or fewer it is in no list. *)
Theorem low_needs_more_than_five_words (text s : str) :
  In s (sentences_of text) ->
  (any_in (words ["critical"; "severe"; "high"]%string) (lower s) = false ->
   any_in (words ["moderate"; "medium"]%string) (lower s) = false ->
   let '(hs, ms, ls) := EmailService.categorize_risks text in
   (In s ls <-> 5 < word_count s) /\ ~ In s hs /\ ~ In s ms)
  /\
  (any_in App.high_risk_keywords (lower s) = false ->
   any_in App.medium_risk_keywords (lower s) = false ->
   let '(hs, ms, ls) := App.display_risks_with_filters (PyStr text) in
   (In s ls <-> 5 < word_count s) /\ ~ In s hs /\ ~ In s ms).
Proof.
  intro Hin. split.
  - intros Hhigh Hmed. unfold EmailService.categorize_risks.
    now apply plain_clause.
  - intros Hhigh Hmed. rewrite display_risks_as_loop.
    now apply plain_clause.
Qed.

Lemma low_needs_more_than_five_words_witness :
  (let '(hs, ms, ls) :=
     EmailService.categorize_risks
       (lit "One two three four five. One two three four five six.") in
   (In (lit "One two three four five") ls
    <-> 5 < word_count (lit "One two three four five"))
   /\ ~ In (lit "One two three four five") hs
   /\ ~ In (lit "One two three four five") ms)
  /\
  (let '(hs, ms, ls) :=
     App.display_risks_with_filters
       (PyStr (lit "One two three four five. One two three four five six.")) in
   (In (lit "One two three four five six") ls
    <-> 5 < word_count (lit "One two three four five six"))
   /\ ~ In (lit "One two three four five six") hs
   /\ ~ In (lit "One two three four five six") ms).
Proof.
  split.
  - apply (low_needs_more_than_five_words
             (lit "One two three four five. One two three four five six.")
             (lit "One two three four five")).
    + left. reflexivity.
    + reflexivity.
    + reflexivity.
  - apply (low_needs_more_than_five_words
             (lit "One two three four five. One two three four five six.")
             (lit "One two three four five six")).
    + right. left. reflexivity.
    + reflexivity.
    + reflexivity.
Defined.

(** ** Counts of the score against the number of findings *)

Lemma findings_bound (high_kw medium_kw : list str) (text : str) :
  let '(hs, ms, ls) :=
    categorize_loop high_kw medium_kw (sentences_of text) in
  (List.length hs + List.length ms + List.length ls
   <= List.length (sentences_of text))%nat.
Proof.
  rewrite categorize_loop_filter.
  apply categorize_lengths.
Qed.

(** C4, as the code has it: for a risk text whose lower-cased form
    [text.lower()] has at most 10,000 characters, so that the cap of
    [calculate_risk_score] cuts nothing off, the findings of either
    classifier are at most as many as the sum of the three counts
    [calculate_risk_score] returns. *)
Theorem findings_at_most_sum_of_counts (text : str) :
  Z.of_nat (List.length (lower text)) <= 10000 ->
  exists s h m l,
    App.calculate_risk_score (PyStr text) = Some (s, h, m, l)
    /\ (let '(hs, ms, ls) := EmailService.categorize_risks text in
        Z.of_nat (List.length hs + List.length ms + List.length ls)
        <= h + m + l)
    /\ (let '(hs, ms, ls) := App.display_risks_with_filters (PyStr text) in
        Z.of_nat (List.length hs + List.length ms + List.length ls)
        <= h + m + l).
Proof.
  intro Hlen.
  rewrite display_risks_as_loop. unfold EmailService.categorize_risks.
  pose proof (findings_bound (words ["critical"; "severe"; "high"]%string)
                (words ["moderate"; "medium"]%string) text) as B1.
  pose proof (findings_bound App.high_risk_keywords
                App.medium_risk_keywords text) as B2.
  destruct (categorize_loop (words ["critical"; "severe"; "high"]%string)
              (words ["moderate"; "medium"]%string) (sentences_of text))
    as [[hs1 ms1] ls1].
  destruct (categorize_loop App.high_risk_keywords
              App.medium_risk_keywords (sentences_of text))
    as [[hs2 ms2] ls2].
  pose proof (sentences_of_bound text) as B.
  unfold App.calculate_risk_score.
  cbn [py_truthy isinstance_str negb orb].
  destruct (truthy text) eqn:Ht; cbn [negb].
  - cbv zeta.
    rewrite firstn_cap by lia.
    rewrite (firstn_all2 (lower text) (n := Z.to_nat 10000)) by lia.
    rewrite split_on_lower, length_map.
    set (h := sum (map _ (words ["critical"; "severe"; "high"]%string))).
    set (m := sum (map _ (words ["moderate"; "medium"]%string))).
    set (pieces := Z.of_nat (List.length (split_on dot text))) in *.
    assert (Hh : 0 <= h) by apply sum_of_nat_nonneg.
    assert (Hm : 0 <= m) by apply sum_of_nat_nonneg.
    destruct (h + m + Z.max 0 (pieces - h - m) =? 0) eqn:E.
    + apply Z.eqb_eq in E.
      exists 0, 0, 0, 0. split; [reflexivity|]. lia.
    + apply Z.eqb_neq in E.
      rewrite truediv_some by lia.
      eexists _, h, m, _. split; [reflexivity|]. lia.
  - destruct text; [|discriminate Ht].
    exists 0, 0, 0, 0. split; [reflexivity|].
    change (sentences_of []) with (@nil str) in B1, B2.
    cbn [List.length] in B1, B2. lia.
Qed.

Lemma findings_at_most_sum_of_counts_witness :
  exists s h m l,
    App.calculate_risk_score (PyStr Spec.vendor_text) = Some (s, h, m, l)
    /\ (let '(hs, ms, ls) := EmailService.categorize_risks Spec.vendor_text in
        Z.of_nat (List.length hs + List.length ms + List.length ls)
        <= h + m + l)
    /\ (let '(hs, ms, ls) :=
          App.display_risks_with_filters (PyStr Spec.vendor_text) in
        Z.of_nat (List.length hs + List.length ms + List.length ls)
        <= h + m + l).
Proof.
  apply (findings_at_most_sum_of_counts Spec.vendor_text).
  vm_compute. discriminate.
Defined.

(** C4 as stated fails: on the text ["hello"] the counts of
    [calculate_risk_score] sum to 1 and the classification yields no
    finding. *)
Lemma counts_sum_counterexample :
  ~ (forall (text : str) (s h m l : Z) (hs ms ls : list str),
        App.calculate_risk_score (PyStr text) = Some (s, h, m, l) ->
        EmailService.categorize_risks text = (hs, ms, ls) ->
        h + m + l
        = Z.of_nat (List.length hs + List.length ms + List.length ls)).
Proof.
  intro H.
  specialize (H (lit "hello") 20 0 0 1 [] [] [] eq_refl eq_refl).
  discriminate H.
Qed.

(** ** The 10,000-character cap *)

(** The tuple [calculate_risk_score] returns for a non-empty string, in
    terms of the text the keywords are counted in. *)
Lemma calculate_risk_score_counts (text : str) :
  truthy text = true ->
  let sample := AppCounts.text_sample text in
  let h := AppCounts.occurrences sample ["critical"; "severe"; "high"]%string in
  let m := AppCounts.occurrences sample ["moderate"; "medium"]%string in
  let l := Z.max 0 (AppCounts.pieces sample - h - m) in
  App.calculate_risk_score (PyStr text) = Some (Spec.score h m l, h, m, l).
Proof.
  intro Ht. cbv zeta.
  unfold App.calculate_risk_score, AppCounts.occurrences, AppCounts.pieces,
    AppCounts.text_sample.
  cbn [py_truthy isinstance_str negb orb]. rewrite Ht. cbn [negb].
  cbv zeta. rewrite firstn_cap by lia.
  set (sample := firstn _ (lower text)).
  set (h := sum (map _ (words ["critical"; "severe"; "high"]%string))).
  set (m := sum (map _ (words ["moderate"; "medium"]%string))).
  set (l := Z.max 0 _).
  assert (Hh : 0 <= h) by apply sum_of_nat_nonneg.
  assert (Hm : 0 <= m) by apply sum_of_nat_nonneg.
  assert (Hl : 0 <= l) by apply Z.le_max_l.
  destruct (h + m + l =? 0) eqn:E.
  - apply Z.eqb_eq in E.
    assert (h = 0 /\ m = 0 /\ l = 0) as (-> & -> & ->) by lia.
    reflexivity.
  - assert (Hne : h + m + l <> 0) by now apply Z.eqb_neq.
    rewrite truediv_some by lia.
    unfold Spec.score. rewrite E.
    rewrite Z.max_l by lia. rewrite Z.mul_1_r. reflexivity.
Qed.

(** C8: [calculate_risk_score] counts the keywords in the first 10,000
    characters of the lower-cased text, and only there: its high and
    medium counts are the numbers of occurrences of its keywords in these
    characters, its low count is what the number of their pieces between
    full stops exceeds the two by, and its score is computed from the
    three; hence two texts whose lower-cased forms agree on their first
    10,000 characters get the same tuple.  [categorize_risks] classifies
    the clauses of the whole text: what follows a full stop is classified
    wherever the full stop is. *)
Theorem cap_applies_to_score_only :
  (forall text : str,
      truthy text = true ->
      let sample := firstn (Z.to_nat 10000) (lower text) in
      let high :=
        AppCounts.occurrences sample ["critical"; "severe"; "high"]%string in
      let medium :=
        AppCounts.occurrences sample ["moderate"; "medium"]%string in
      let low := Z.max 0 (AppCounts.pieces sample - high - medium) in
      App.calculate_risk_score (PyStr text)
      = Some (Spec.score high medium low, high, medium, low))
  /\
  (forall t1 t2 : str,
      truthy t1 = true -> truthy t2 = true ->
      firstn (Z.to_nat 10000) (lower t1)
      = firstn (Z.to_nat 10000) (lower t2) ->
      App.calculate_risk_score (PyStr t1)
      = App.calculate_risk_score (PyStr t2))
  /\
  (forall p s : str,
      EmailService.categorize_risks (p ++ dot :: s)
      = let '(h1, m1, l1) := EmailService.categorize_risks p in
        let '(h2, m2, l2) := EmailService.categorize_risks s in
        (h1 ++ h2, m1 ++ m2, l1 ++ l2)).
Proof.
  split; [|split].
  - intros text Ht. exact (calculate_risk_score_counts text Ht).
  - intros t1 t2 H1 H2 Hsample.
    unfold App.calculate_risk_score.
    cbn [py_truthy isinstance_str negb orb]. rewrite H1, H2.
    cbn [negb]. cbv zeta.
    rewrite !firstn_cap by lia. rewrite Hsample. reflexivity.
  - intros p s. unfold EmailService.categorize_risks.
    rewrite sentences_of_app. apply categorize_loop_app.
Qed.

Lemma cap_applies_to_score_only_witness :
  let padding := repeat "a"%char (Z.to_nat 9992) in
  let head := lit "critical" ++ padding in
  let text := head ++ lit ". A critical gap" in
  Z.of_nat (List.length head) = 10000
  /\ App.calculate_risk_score (PyStr text)
     = Some (Spec.score 1 0 0, 1, 0, 0)
  /\ App.calculate_risk_score (PyStr text)
     = App.calculate_risk_score (PyStr head)
  /\ EmailService.categorize_risks text
     = ([head; lit "A critical gap"], [], []).
Proof.
  intros padding head text.
  split; [vm_compute; reflexivity|]. split; [|split].
  - refine (eq_trans (proj1 cap_applies_to_score_only text eq_refl) _).
    vm_compute. reflexivity.
  - apply (proj1 (proj2 cap_applies_to_score_only) text head).
    + reflexivity.
    + reflexivity.
    + vm_compute. reflexivity.
  - vm_compute. reflexivity.
Defined.

(** ** The counts of the e-mail report *)

Section Report.

Import EmailService.

Lemma items_run_numbered (start : Z) (risks : list str) (rest : list line) :
  items_run (numbered start risks ++ rest)
  = Z.of_nat (List.length risks) + items_run rest.
Proof.
  revert start. induction risks as [|r risks IH]; intro start.
  - reflexivity.
  - cbn [numbered app items_run List.length]. rewrite IH. lia.
Qed.

Lemma listed_count_numbered (sev : severity) (start : Z) (risks : list str)
    (rest : list line) :
  listed_count sev (numbered start risks ++ rest) = listed_count sev rest.
Proof.
  revert start. induction risks as [|r risks IH]; intro start.
  - reflexivity.
  - cbn [numbered app listed_count]. apply IH.
Qed.

Lemma items_run_block (sev : severity) (risks : list str)
    (rest : list line) :
  items_run rest = 0 -> items_run (priority_block sev risks ++ rest) = 0.
Proof. destruct risks; [trivial | reflexivity]. Qed.

(** The entries of the risk analysis section of a string: the three
    blocks, then the text itself when all three are empty. *)
Lemma listed_in_blocks (hs ms ls : list str) (tail : str) :
  let blocks :=
    priority_block High hs ++ priority_block Medium ms
    ++ priority_block Low ls
    ++ (if negb (truthy hs || truthy ms || truthy ls)
        then [Text tail] else []) in
  listed_count High blocks = Z.of_nat (List.length hs)
  /\ listed_count Medium blocks = Z.of_nat (List.length ms)
  /\ listed_count Low blocks = Z.of_nat (List.length ls).
Proof.
  cbv zeta.
  set (tl := if negb (truthy hs || truthy ms || truthy ls)
             then [Text tail] else []).
  assert (Htl : items_run tl = 0 /\ forall sev, listed_count sev tl = 0).
  { unfold tl. destruct (negb _); split; try reflexivity; intros [];
      reflexivity. }
  destruct Htl as [Htl Hno].
  assert (Hl : items_run (priority_block Low ls ++ tl) = 0)
    by now apply items_run_block.
  assert (Hm : items_run (priority_block Medium ms
                          ++ priority_block Low ls ++ tl) = 0)
    by now apply items_run_block.
  repeat split.
  - destruct hs as [|r hs].
    + cbn [priority_block app List.length].
      destruct ms; destruct ls;
        cbn [priority_block app listed_count];
        rewrite ?listed_count_numbered; cbn [listed_count];
        rewrite ?listed_count_numbered; cbn [listed_count]; apply Hno.
    + cbn [priority_block app listed_count].
      rewrite items_run_numbered, Hm. lia.
  - destruct hs as [|r hs]; cbn [priority_block app listed_count];
      rewrite ?listed_count_numbered.
    all: destruct ms as [|r' ms];
      [ cbn [priority_block app List.length];
        destruct ls; cbn [priority_block app listed_count];
        rewrite ?listed_count_numbered; apply Hno
      | cbn [priority_block app listed_count];
        rewrite items_run_numbered, Hl; lia ].
  - destruct hs as [|r hs]; cbn [priority_block app listed_count];
      rewrite ?listed_count_numbered.
    all: destruct ms as [|r' ms]; cbn [priority_block app listed_count];
      rewrite ?listed_count_numbered.
    all: destruct ls as [|r'' ls];
      [ cbn [priority_block app List.length]; apply Hno
      | cbn [priority_block app listed_count];
        rewrite items_run_numbered, Htl; lia ].
Qed.

Lemma count_if_lower (p : str -> bool) (sentences : list str) :
  count_if p (map lower sentences)
  = Z.of_nat (List.length (filter (fun s => p (lower s)) sentences)).
Proof.
  now rewrite count_if_length, filter_map_commute, length_map.
Qed.

(** The counts [calculate_risk_counts] returns, whatever its score. *)
Lemma calculate_risk_counts_counts (text : str) :
  let sentences := sentences_of (lower text) in
  exists s,
    calculate_risk_counts text
    = Some (s,
            count_if
              (any_in (words ["critical"; "severe"; "high risk";
                              "significant"; "major"]%string))
              sentences,
            count_if
              (any_in (words ["moderate"; "medium"; "potential";
                              "concerning"]%string))
              sentences,
            count_if
              (fun s =>
                 (5 <? word_count s)
                 && negb (any_in (words ["critical"; "severe"; "high risk";
                                         "moderate"; "medium";
                                         "potential"]%string) s))
              sentences).
Proof.
  cbv zeta. unfold calculate_risk_counts. cbv zeta.
  set (h := count_if _ _).
  set (m := count_if (any_in (words ["moderate"; "medium"; "potential";
                                     "concerning"]%string)) _).
  set (l := count_if (fun s => (5 <? word_count s) && _) _).
  assert (Hh : 0 <= h) by apply count_if_nonneg.
  assert (Hm : 0 <= m) by apply count_if_nonneg.
  assert (Hl : 0 <= l) by apply count_if_nonneg.
  destruct (h + m + l =? 0) eqn:E.
  - apply Z.eqb_eq in E.
    assert (h = 0 /\ m = 0 /\ l = 0) as (-> & -> & ->) by lia.
    now exists 0.
  - apply Z.eqb_neq in E.
    rewrite truediv_some by lia. eexists. reflexivity.
Qed.

End Report.

Section Agreement.

Import EmailService.

(** C1 fails in the code.  [prepare_email_content] fills the Score section
    from [calculate_risk_counts] and the Findings section from
    [categorize_risks], two functions with different keyword lists and
    different tests.  For the risk text "There is a significant gap in
    the cover today." the Score section prints 1 high and 1 low priority
    issue, the one clause being counted twice, and the Findings section
    lists that clause once, under the low priority heading.  For the risk
    text "high" the Score section prints no issue at all and the Findings
    section lists one high priority finding. *)
Theorem report_sections_disagree :
  (let text := lit "There is a significant gap in the cover today." in
   calculate_risk_counts text = Some (67, 1, 0, 1)
   /\ categorize_risks text
      = ([], [], [lit "There is a significant gap in the cover today"])
   /\ exists content,
        prepare_email_content true true (PyStr text) = Some content
        /\ printed_count High content = Some 1
        /\ listed_count High content = 0
        /\ printed_count Medium content = Some 0
        /\ listed_count Medium content = 0
        /\ printed_count Low content = Some 1
        /\ listed_count Low content = 1)
  /\
  (calculate_risk_counts (lit "high") = Some (0, 0, 0, 0)
   /\ categorize_risks (lit "high") = ([lit "high"], [], [])
   /\ exists content,
        prepare_email_content true true (PyStr (lit "high")) = Some content
        /\ printed_count High content = Some 0
        /\ listed_count High content = 1).
Proof.
  split.
  - cbv zeta. split; [reflexivity|]. split; [reflexivity|].
    eexists. split; [reflexivity|]. repeat split.
  - split; [reflexivity|]. split; [reflexivity|].
    eexists. split; [reflexivity|]. split; reflexivity.
Qed.

End Agreement.

(** * Further properties of the code *)

(** ** Bounds through the float arithmetic *)

Lemma rne_le (a b k : Z) : 0 < b -> a <= k * b -> rne a b <= k.
Proof.
  intros Hb H. unfold rne.
  pose proof (Z.div_mod a b ltac:(lia)) as E.
  pose proof (Z.mod_pos_bound a b Hb) as R.
  destruct (2 * (a mod b) <? b) eqn:C1.
  - nia.
  - apply Z.ltb_ge in C1.
    assert (a / b < k) by nia.
    destruct (b <? 2 * (a mod b)); [lia|].
    destruct (Z.even (a / b)); lia.
Qed.

Lemma rne_ge (a b k : Z) : 0 < b -> k * b <= a -> k <= rne a b.
Proof.
  intros Hb H. unfold rne.
  pose proof (Z.div_mod a b ltac:(lia)) as E.
  pose proof (Z.mod_pos_bound a b Hb) as R.
  assert (k <= a / b) by nia.
  destruct (2 * (a mod b) <? b); [lia|].
  destruct (b <? 2 * (a mod b)); [lia|].
  destruct (Z.even (a / b)); lia.
Qed.

(** Above [k - 1/2] the rounding reaches [k]. *)
Lemma rne_ge_half (a b k : Z) :
  0 < b -> (2 * k - 1) * b < 2 * a -> k <= rne a b.
Proof.
  intros Hb H. unfold rne.
  pose proof (Z.div_mod a b ltac:(lia)) as E.
  pose proof (Z.mod_pos_bound a b Hb) as R.
  assert (Hq : k - 1 <= a / b).
  { destruct (Z_lt_le_dec (a / b) (k - 1)) as [Hlt|]; [|assumption].
    assert (b * (a / b) <= b * (k - 2))
      by (apply Z.mul_le_mono_nonneg_l; lia).
    lia. }
  destruct (Z.eq_dec (a / b) (k - 1)) as [Eq|]; [|
    destruct (2 * (a mod b) <? b); [lia|];
    destruct (b <? 2 * (a mod b)); [lia|];
    destruct (Z.even (a / b)); lia].
  rewrite Eq in *.
  assert (b < 2 * (a mod b)) by lia.
  destruct (2 * (a mod b) <? b) eqn:C1; [apply Z.ltb_lt in C1; lia|].
  destruct (b <? 2 * (a mod b)) eqn:C2; [lia|].
  apply Z.ltb_ge in C2. lia.
Qed.

(** A quotient bracketed by two dyadic numbers [p / 2^j] and [q / 2^j]
    that a double holds is rounded to a double in the same bracket. *)
Lemma round53_bracket (n d p q j : Z) :
  0 < d -> 0 < n -> 0 <= j <= 52 -> 0 <= p ->
  p * d <= n * 2 ^ j -> n * 2 ^ j <= q * d -> q <= 2 ^ 52 ->
  0 < snd (round53 n d)
  /\ p * snd (round53 n d) <= fst (round53 n d) * 2 ^ j
  /\ fst (round53 n d) * 2 ^ j <= q * snd (round53 n d).
Proof.
  intros Hd Hn Hj Hp Hlo Hhi Hq.
  assert (Hj2 : 0 < 2 ^ j) by (apply Z.pow_pos_nonneg; lia).
  unfold round53.
  destruct (n <=? 0) eqn:En; [apply Z.leb_le in En; lia|]. clear En.
  set (e0 := Z.log2 n - Z.log2 d - 52).
  assert (He0 : e0 + j <= 0).
  { destruct (Z_le_gt_dec (e0 + j) 0) as [|Hgt]; [assumption|exfalso].
    pose proof (Z.log2_spec n Hn) as [Ln _].
    pose proof (Z.log2_spec d Hd) as [_ Ld].
    pose proof (Z.log2_nonneg d) as Hld.
    assert (H1 : 2 ^ (Z.log2 d + 53 - j) <= 2 ^ Z.log2 n)
      by (apply Z.pow_le_mono_r; unfold e0 in Hgt; lia).
    assert (H2 : 2 ^ (Z.log2 d + 53 - j) * 2 ^ j
                 = 2 ^ (Z.succ (Z.log2 d)) * 2 ^ 52).
    { rewrite <- !Z.pow_add_r by lia. f_equal. lia. }
    assert (H3 : 2 ^ (Z.log2 d + 53 - j) * 2 ^ j <= n * 2 ^ j)
      by (apply Z.mul_le_mono_nonneg_r; lia).
    assert (H4 : d * 2 ^ 52 < 2 ^ (Z.succ (Z.log2 d)) * 2 ^ 52)
      by (apply Z.mul_lt_mono_pos_r; lia).
    assert (H5 : q * d <= 2 ^ 52 * d)
      by (apply Z.mul_le_mono_nonneg_r; lia).
    lia. }
  set (e := let '(a, b) := scaled n d e0 in
            if a / b <? 2 ^ 52 then e0 - 1 else e0).
  assert (He : e <= e0).
  { unfold e. destruct (scaled n d e0) as [a b].
    destruct (a / b <? 2 ^ 52); lia. }
  clearbody e. unfold scaled.
  destruct (0 <=? e) eqn:Ee.
  - apply Z.leb_le in Ee.
    assert (e = 0) by lia. assert (j = 0) by lia. subst e j.
    change (2 ^ 0) with 1 in *. rewrite !Z.mul_1_r in *.
    cbn [fst snd].
    split; [lia|]. split.
    + pose proof (rne_ge n d p Hd Hlo). lia.
    + pose proof (rne_le n d q Hd Hhi). lia.
  - apply Z.leb_gt in Ee. cbn [fst snd].
    set (k := - e - j).
    assert (Hk : 0 <= k) by (unfold k; lia).
    assert (Hk2 : 0 < 2 ^ k) by (apply Z.pow_pos_nonneg; lia).
    assert (Epow : 2 ^ (- e) = 2 ^ k * 2 ^ j).
    { rewrite <- Z.pow_add_r by lia. f_equal. unfold k. lia. }
    rewrite Epow.
    split; [lia|].
    assert (L : (p * 2 ^ k) * d <= n * (2 ^ k * 2 ^ j)).
    { replace (p * 2 ^ k * d) with ((p * d) * 2 ^ k) by ring.
      replace (n * (2 ^ k * 2 ^ j)) with ((n * 2 ^ j) * 2 ^ k) by ring.
      apply Z.mul_le_mono_nonneg_r; lia. }
    assert (U : n * (2 ^ k * 2 ^ j) <= (q * 2 ^ k) * d).
    { replace (q * 2 ^ k * d) with ((q * d) * 2 ^ k) by ring.
      replace (n * (2 ^ k * 2 ^ j)) with ((n * 2 ^ j) * 2 ^ k) by ring.
      apply Z.mul_le_mono_nonneg_r; lia. }
    pose proof (rne_ge _ d _ Hd L) as G.
    pose proof (rne_le _ d _ Hd U) as G'.
    split.
    + replace (p * (2 ^ k * 2 ^ j)) with ((p * 2 ^ k) * 2 ^ j) by ring.
      apply Z.mul_le_mono_nonneg_r; lia.
    + replace (q * (2 ^ k * 2 ^ j)) with ((q * 2 ^ k) * 2 ^ j) by ring.
      apply Z.mul_le_mono_nonneg_r; lia.
Qed.

(** ** The range of the two scores *)

(** With the weighted sum between [lo] and [hi] times the total, the
    score of the specification's formula is between [20 * lo] and
    [20 * hi]. *)
Lemma spec_score_between (h m l lo hi : Z) :
  0 < h + m + l -> 1 <= lo -> hi <= 3 ->
  lo * (h + m + l) <= h * 3 + m * 2 + l ->
  h * 3 + m * 2 + l <= hi * (h + m + l) ->
  20 * lo <= Spec.score h m l <= 20 * hi.
Proof.
  intros Ht Hlo Hhi L U. unfold Spec.score.
  destruct (h + m + l =? 0) eqn:E; [apply Z.eqb_eq in E; lia|]. clear E.
  rewrite Z.mul_1_r.
  set (W := h * 3 + m * 2 + l) in *. set (T := h + m + l) in *.
  destruct (round53_bracket W T lo hi 0 Ht) as (B1 & L1 & U1);
    try (change (2 ^ 0) with 1); try (change (2 ^ 52) with 4503599627370496);
    try lia; try nia.
  change (2 ^ 0) with 1 in L1, U1.
  unfold round, mul_int.
  set (a1 := fst (round53 W T)) in *. set (b1 := snd (round53 W T)) in *.
  destruct (round53_bracket (a1 * 20) b1 (20 * lo) (20 * hi) 0 B1)
    as (B2 & L2 & U2);
    try (change (2 ^ 0) with 1); try (change (2 ^ 52) with 4503599627370496);
    try lia.
  change (2 ^ 0) with 1 in L2, U2.
  set (a2 := fst (round53 (a1 * 20) b1)) in *.
  set (b2 := snd (round53 (a1 * 20) b1)) in *.
  pose proof (rne_ge a2 b2 (20 * lo) B2 ltac:(lia)).
  pose proof (rne_le a2 b2 (20 * hi) B2 ltac:(lia)).
  lia.
Qed.

(** The score [calculate_risk_counts] computes from counts that are not
    all zero is at least 33. *)
Lemma email_score_lower_bound (h m l : Z) :
  0 <= h -> 0 <= m -> 0 <= l -> 0 < h + m + l ->
  33 <= round (mul_int (round53 (h * 3 + m * 2 + l) ((h + m + l) * 3))
                       100).
Proof.
  intros Hh Hm Hl Ht.
  set (W := h * 3 + m * 2 + l). set (T := (h + m + l) * 3).
  assert (HT : 0 < T) by (unfold T; lia).
  destruct (round53_bracket W T 21 64 6 HT) as (B1 & L1 & U1);
    try (change (2 ^ 6) with 64); try (change (2 ^ 52) with 4503599627370496);
    try (unfold W, T; lia).
  change (2 ^ 6) with 64 in L1, U1.
  unfold round, mul_int.
  set (a1 := fst (round53 W T)) in *. set (b1 := snd (round53 W T)) in *.
  destruct (round53_bracket (a1 * 100) b1 2100 6400 6 B1)
    as (B2 & L2 & U2);
    try (change (2 ^ 6) with 64); try (change (2 ^ 52) with 4503599627370496);
    try lia.
  change (2 ^ 6) with 64 in L2, U2.
  apply rne_ge_half; [assumption | lia].
Qed.

Lemma pieces_positive (sample : str) : 1 <= AppCounts.pieces sample.
Proof.
  unfold AppCounts.pieces.
  pose proof (split_on_nonempty dot sample).
  destruct (split_on dot sample); [contradiction | cbn [List.length]; lia].
Qed.

Lemma occurrences_nonneg (sample : str) (keywords : list string) :
  0 <= AppCounts.occurrences sample keywords.
Proof. apply sum_of_nat_nonneg. Qed.

Lemma calculate_risk_score_nonempty (text : str) :
  truthy text = true ->
  exists h m l,
    0 <= h /\ 0 <= m /\ 0 <= l /\ 1 <= h + m + l
    /\ l = Z.max 0 (AppCounts.pieces (AppCounts.text_sample text) - h - m)
    /\ App.calculate_risk_score (PyStr text)
       = Some (Spec.score h m l, h, m, l).
Proof.
  intro Ht.
  pose proof (calculate_risk_score_counts text Ht) as E. cbv zeta in E.
  set (sample := AppCounts.text_sample text) in *.
  set (h := AppCounts.occurrences sample _) in *.
  set (m := AppCounts.occurrences sample ["moderate"; "medium"]%string) in *.
  pose proof (occurrences_nonneg sample ["critical"; "severe"; "high"]%string).
  pose proof (occurrences_nonneg sample ["moderate"; "medium"]%string).
  pose proof (pieces_positive sample).
  exists h, m, (Z.max 0 (AppCounts.pieces sample - h - m)).
  repeat split; try assumption; try lia.
Qed.

(** X1.  On a non-empty string [calculate_risk_score] counts at least one
    item and returns a score between 20 and 60, so [display_risk_score]
    shows a score in that range and never the high risk level; it shows
    "no risk data" exactly on an empty or non-string value and never the
    error message. *)
Theorem display_risk_score_range (v : pyval) :
  match AppDisplay.display_risk_score v with
  | AppDisplay.NoRiskData => v = PyStr [] \/ isinstance_str v = false
  | AppDisplay.ScoreShown s level h m l =>
      20 <= s <= 60 /\ level <> High /\ 1 <= h + m + l
      /\ (exists text, v = PyStr text /\ text <> [])
  | AppDisplay.ScoreError => False
  end.
Proof.
  unfold AppDisplay.display_risk_score.
  destruct v as [| b | n | text]; cbn [py_truthy isinstance_str negb orb];
    [ right; reflexivity
    | rewrite orb_true_r; right; reflexivity
    | rewrite orb_true_r; right; reflexivity
    | ].
  destruct text as [|c r]; cbn [truthy negb]; [left; reflexivity|].
  destruct (calculate_risk_score_nonempty (c :: r) eq_refl)
    as (h & m & l & Hh & Hm & Hl & Ht & _ & E).
  rewrite E.
  pose proof (spec_score_between h m l 1 3) as B.
  specialize (B ltac:(lia) ltac:(lia) ltac:(lia) ltac:(lia) ltac:(lia)).
  repeat split; try lia.
  - unfold AppDisplay.risk_level.
    destruct (70 <=? Spec.score h m l) eqn:C; [apply Z.leb_le in C; lia|].
    destruct (40 <=? Spec.score h m l); discriminate.
  - exists (c :: r). split; [reflexivity | discriminate].
Qed.

(** X2.  When [calculate_risk_score] returns at least as many high as low
    items for a non-empty string, the score is at least 40 and the level
    shown is the medium one. *)
Theorem more_high_than_low_is_medium (text : str) (s h m l : Z) :
  truthy text = true ->
  App.calculate_risk_score (PyStr text) = Some (s, h, m, l) ->
  l <= h ->
  40 <= s <= 60 /\ AppDisplay.risk_level s = Medium.
Proof.
  intros Ht E Hlh.
  destruct (calculate_risk_score_nonempty text Ht)
    as (h' & m' & l' & Hh & Hm & Hl & Hpos & _ & E').
  rewrite E' in E. injection E as <- <- <- <-.
  pose proof (spec_score_between h' m' l' 2 3) as B.
  specialize (B ltac:(lia) ltac:(lia) ltac:(lia) ltac:(lia) ltac:(lia)).
  split; [lia|].
  unfold AppDisplay.risk_level.
  destruct (70 <=? Spec.score h' m' l') eqn:C; [apply Z.leb_le in C; lia|].
  destruct (40 <=? Spec.score h' m' l') eqn:C'; [reflexivity|].
  apply Z.leb_gt in C'. lia.
Qed.

Lemma more_high_than_low_is_medium_witness :
  40 <= 40 <= 60 /\ AppDisplay.risk_level 40 = Medium.
Proof.
  apply (more_high_than_low_is_medium Spec.vendor_text 40 1 1 1).
  - reflexivity.
  - vm_compute. reflexivity.
  - lia.
Defined.

Lemma count_from_absent (w : str) (skip : nat) (s : str) :
  contains w s = false -> count_from w skip s = 0%nat.
Proof.
  revert skip. induction s as [|c r IH]; intros skip H; [reflexivity|].
  cbn [contains] in H. apply orb_false_iff in H as [Hs Hr].
  cbn [count_from]. destruct skip as [|k].
  - rewrite Hs. now apply IH.
  - now apply IH.
Qed.

Lemma count_absent (s w : str) :
  w <> [] -> contains w s = false -> count s w = 0%nat.
Proof.
  intros Hw H. destruct w as [|a w]; [contradiction|].
  unfold count. now apply count_from_absent.
Qed.

(** X3.  A non-empty text whose first 10,000 lower-cased characters
    contain none of the five keywords gets the score 20, no high and no
    medium item, and as many low items as the full stops of these
    characters cut pieces. *)
Theorem keyword_free_text_scores_20 (text : str) :
  truthy text = true ->
  (forall word,
      In word ["critical"; "severe"; "high"; "moderate"; "medium"]%string ->
      contains (lit word) (AppCounts.text_sample text) = false) ->
  App.calculate_risk_score (PyStr text)
  = Some (20, 0, 0, AppCounts.pieces (AppCounts.text_sample text)).
Proof.
  intros Ht Hfree.
  rewrite (calculate_risk_score_counts text Ht). cbv zeta.
  set (sample := AppCounts.text_sample text) in *.
  assert (Z : forall word,
             In word ["critical"; "severe"; "high"; "moderate";
                      "medium"]%string ->
             Z.of_nat (count sample (lit word)) = 0).
  { intros word Hin. rewrite count_absent; [reflexivity | | now apply Hfree].
    cbn [In] in Hin.
    repeat (destruct Hin as [<- | Hin]; [discriminate|]). contradiction. }
  unfold AppCounts.occurrences. cbn [words map sum fold_right].
  rewrite !Z by (cbn [In]; tauto).
  cbn [Z.add]. rewrite !Z.sub_0_r.
  pose proof (pieces_positive sample) as Hp.
  rewrite Z.max_r by lia.
  pose proof (spec_score_between 0 0 (AppCounts.pieces sample) 1 1) as B.
  specialize (B ltac:(lia) ltac:(lia) ltac:(lia) ltac:(lia) ltac:(lia)).
  repeat f_equal. lia.
Qed.

Lemma keyword_free_text_scores_20_witness :
  App.calculate_risk_score (PyStr (lit "One. Two. Three"))
  = Some (20, 0, 0, 3).
Proof.
  apply (keyword_free_text_scores_20 (lit "One. Two. Three")).
  - reflexivity.
  - intros word Hin. cbn [In] in Hin.
    repeat (destruct Hin as [<- | Hin]; [reflexivity|]). contradiction.
Defined.

(** X4.  [calculate_risk_counts] returns either the score 0 with three
    zero counts, or a score between 33 and 100. *)
Theorem email_score_range (text : str) :
  exists s h m l,
    EmailService.calculate_risk_counts text = Some (s, h, m, l)
    /\ ((s = 0 /\ h = 0 /\ m = 0 /\ l = 0) \/ 33 <= s <= 100).
Proof.
  destruct (calculate_risk_counts_shape text)
    as (h & m & l & Hh & Hm & Hl & E).
  eexists _, h, m, l. split; [exact E|].
  destruct (h + m + l =? 0) eqn:E0.
  - apply Z.eqb_eq in E0. left. repeat split; lia.
  - apply Z.eqb_neq in E0. right.
    pose proof (email_score_lower_bound h m l Hh Hm Hl ltac:(lia)). lia.
Qed.

(** ** The detailed analysis tab *)

Section Detailed.

Import DetailedAnalysis.

Lemma in_firstn {A : Type} (n : nat) (l : list A) (x : A) :
  In x (firstn n l) -> In x l.
Proof.
  intro H. rewrite <- (firstn_skipn n l). apply in_or_app. now left.
Qed.

Lemma enumerate_length {A : Type} (start : Z) (l : list A) :
  List.length (enumerate start l) = List.length l.
Proof.
  revert start. induction l as [|x l IH]; intro start; simpl;
    [reflexivity | now rewrite IH].
Qed.

Lemma enumerate_snd {A : Type} (start : Z) (l : list A) :
  map snd (enumerate start l) = l.
Proof.
  revert start. induction l as [|x l IH]; intro start; simpl;
    [reflexivity | now rewrite IH].
Qed.

Lemma enumerate_nth {A : Type} (start : Z) (l : list A) (k : nat) (d : Z * A) :
  (k < List.length l)%nat ->
  fst (nth k (enumerate start l) d) = start + Z.of_nat k.
Proof.
  revert start k. induction l as [|x l IH]; intros start k Hk;
    [simpl in Hk; lia|].
  destruct k as [|k]; cbn [enumerate nth fst]; [lia|].
  cbn [List.length] in Hk. rewrite IH by lia. lia.
Qed.

Lemma sentences_are_clauses (text s : str) :
  In s (sentences text) ->
  In s (sentences_of text) /\ 10 < Z.of_nat (List.length s).
Proof.
  unfold sentences, sentences_of. intro H.
  apply in_firstn in H. apply in_map_iff in H as (x & <- & Hx).
  apply filter_In in Hx as [Hx Hlen]. apply Z.ltb_lt in Hlen.
  split; [|assumption].
  apply in_map. apply filter_In. split; [assumption|].
  destruct (strip x); [simpl in Hlen; lia | reflexivity].
Qed.

(** X5.  The detailed analysis tab writes at most 15 boxes, numbered from
    1 without a gap, each for a clause of the risks text of more than 10
    characters. *)
Theorem detailed_analysis_shape (risks : str) :
  let shown := detailed_analysis risks in
  (List.length shown <= 15)%nat
  /\ (forall k, (k < List.length shown)%nat ->
                fst (fst (nth k shown (0, InfoBox, []))) = 1 + Z.of_nat k)
  /\ (forall i b s, In (i, b, s) shown ->
                    In s (sentences_of risks)
                    /\ 10 < Z.of_nat (List.length s)).
Proof.
  cbv zeta. unfold detailed_analysis.
  destruct (truthy risks).
  2:{ split; [simpl; lia|]. split; [intros k Hk; simpl in Hk; lia|].
      intros i b s []. }
  rewrite length_map, enumerate_length.
  split; [unfold sentences; rewrite length_firstn; lia|].
  split.
  - intros k Hk.
    change (0, InfoBox, @nil ascii)
      with ((fun entry : Z * str =>
               (fst entry, box_of (snd entry), snd entry)) (0, [])).
    rewrite map_nth. cbn [fst]. now apply enumerate_nth.
  - intros i b s H. apply in_map_iff in H as ([j x] & E & Hx).
    cbn [fst snd] in E. injection E as _ _ ->.
    apply sentences_are_clauses.
    rewrite <- (enumerate_snd 1 (sentences risks)).
    change s with (snd (j, s)). now apply in_map.
Qed.

(** X6.  The tab and [categorize_risks] use the same keywords: a clause
    shown in the tab is in an error box exactly when [categorize_risks]
    lists it as high, and in a warning box exactly when it lists it as
    medium; what it lists as low is in an info box. *)
Theorem detailed_analysis_agrees_with_categorize (risks : str)
    (i : Z) (b : box) (s : str) :
  In (i, b, s) (detailed_analysis risks) ->
  let '(hs, ms, ls) := EmailService.categorize_risks risks in
  (b = ErrorBox <-> In s hs)
  /\ (b = WarningBox <-> In s ms)
  /\ (In s ls -> b = InfoBox).
Proof.
  intro H.
  assert (Hs : In s (sentences_of risks) /\ b = box_of s).
  { unfold detailed_analysis in H.
    destruct (truthy risks); [|destruct H].
    apply in_map_iff in H as ([j x] & E & Hx).
    cbn [fst snd] in E. injection E as _ <- ->. split; [|reflexivity].
    apply sentences_are_clauses.
    rewrite <- (enumerate_snd 1 (sentences risks)).
    change s with (snd (j, s)). now apply in_map. }
  destruct Hs as [Hin ->].
  unfold EmailService.categorize_risks. rewrite categorize_loop_filter.
  rewrite !filter_In.
  unfold goes_low, goes_medium, goes_high, box_of.
  cbn [any_in words map existsb]. rewrite !orb_false_r, !orb_assoc.
  destruct (contains (lit "critical") (lower s)
            || contains (lit "severe") (lower s)
            || contains (lit "high") (lower s));
    destruct (contains (lit "moderate") (lower s)
              || contains (lit "medium") (lower s));
    cbn [negb andb]; repeat split; try tauto; try discriminate;
    intros [_ F]; discriminate F.
Qed.

Lemma detailed_analysis_agrees_with_categorize_witness :
  let '(hs, ms, ls) := EmailService.categorize_risks Spec.vendor_text in
  (ErrorBox = ErrorBox
   <-> In (lit "The vendor shall indemnify against all critical liabilities")
          hs)
  /\ (ErrorBox = WarningBox
      <-> In (lit "The vendor shall indemnify against all critical liabilities")
             ms)
  /\ (In (lit "The vendor shall indemnify against all critical liabilities")
         ls -> ErrorBox = InfoBox).
Proof.
  apply (detailed_analysis_agrees_with_categorize Spec.vendor_text 1).
  left. reflexivity.
Defined.

End Detailed.

(** ** The text export *)

Section Txt.

Import TxtExport Sidebar.

Lemma str_eqb_eq (a b : str) : str_eqb a b = true <-> a = b.
Proof.
  revert b. induction a as [|x a IH]; intros [|y b]; simpl;
    try (split; [discriminate | discriminate]); [tauto|].
  rewrite andb_true_iff, Ascii.eqb_eq, IH.
  split; [intros [-> ->]; reflexivity | intro E; injection E; auto].
Qed.

Lemma lstrip_subset (s : str) (c : ascii) : In c (lstrip s) -> In c s.
Proof.
  induction s as [|a r IH]; simpl; [trivial|].
  destruct (is_space a); [auto | trivial].
Qed.

Lemma rstrip_subset (s : str) (c : ascii) : In c (rstrip s) -> In c s.
Proof.
  induction s as [|a r IH]; simpl; [trivial|].
  destruct (rstrip r) as [|k kept].
  - destruct (is_space a); simpl; tauto.
  - simpl in *. tauto.
Qed.

Lemma strip_subset (s : str) (c : ascii) : In c (strip s) -> In c s.
Proof. intro H. now apply lstrip_subset, rstrip_subset. Qed.

Lemma lstrip_keeps (s : str) (c : ascii) :
  is_space c = false -> In c s -> In c (lstrip s).
Proof.
  intro Hc. induction s as [|a r IH]; simpl; [trivial|].
  destruct (is_space a) eqn:Ha; [|trivial].
  intros [-> | H]; [congruence | auto].
Qed.

Lemma rstrip_keeps (s : str) (c : ascii) :
  is_space c = false -> In c s -> In c (rstrip s).
Proof.
  intro Hc. induction s as [|a r IH]; simpl; [trivial|].
  intros [-> | H].
  - destruct (rstrip r); [rewrite Hc|]; now left.
  - specialize (IH H). destruct (rstrip r); [destruct IH | now right].
Qed.

Lemma strip_keeps (s : str) (c : ascii) :
  is_space c = false -> In c s -> In c (strip s).
Proof. intros Hc H. now apply rstrip_keeps, lstrip_keeps. Qed.

Lemma startswith_head (a : ascii) (w s : str) :
  startswith (a :: w) s = true -> In a s.
Proof.
  destruct s as [|b s]; simpl; [discriminate|].
  intro H. apply andb_true_iff in H as [H _].
  apply Ascii.eqb_eq in H. now left.
Qed.

Lemma contains_head (a : ascii) (w s : str) :
  contains (a :: w) s = true -> In a s.
Proof.
  induction s as [|b s IH]; intro H.
  - simpl in H. discriminate.
  - cbn [contains] in H. apply orb_true_iff in H as [H|H].
    + now apply startswith_head in H.
    + right. now apply IH.
Qed.

Lemma header_has_capital (line : str) :
  is_section_header line = true ->
  In "D"%char line \/ In "R"%char line.
Proof.
  unfold is_section_header. intro H.
  apply orb_true_iff in H as [H|H];
    [apply orb_true_iff in H as [H|H]|].
  - left. exact (contains_head _ _ _ H).
  - right. exact (contains_head _ _ _ H).
  - right. exact (contains_head _ _ _ H).
Qed.

Lemma in_repeat (c x : ascii) (n : nat) : In x (repeat c n) -> x = c.
Proof. intro H. exact (repeat_spec n c x H). Qed.

(** What a line becomes in one iteration. *)
Lemma txt_step_header (b : bool) (t : str) (f : list str) (line : str) :
  is_section_header line = true ->
  txt_step (b, t, f) line
  = (true, strip line,
     (if b then f ++ [[]] else f)
     ++ [[]] ++ [strip line]
     ++ [repeat "-"%char (List.length (strip line))]).
Proof. intro H. unfold txt_step. now rewrite H. Qed.

Lemma txt_step_other (b : bool) (t : str) (f : list str) (line : str) :
  is_section_header line = false ->
  txt_step (b, t, f) line
  = (b, t, if is_kept line then f ++ [line] else f).
Proof.
  intro H. unfold txt_step, is_kept. rewrite H.
  destruct (str_eqb (strip line) (repeat "="%char 50)); [reflexivity|].
  destruct (truthy (strip line)); reflexivity.
Qed.

Lemma txt_fold_plain (lines : list str) (b : bool) (t : str)
    (f : list str) :
  (forall line, In line lines -> is_section_header line = false) ->
  fold_left txt_step lines (b, t, f) = (b, t, f ++ filter is_kept lines).
Proof.
  revert f. induction lines as [|line rest IH]; intros f H.
  - simpl. now rewrite app_nil_r.
  - cbn [fold_left filter].
    rewrite txt_step_other by (apply H; now left).
    rewrite IH by (intros l Hl; apply H; now right).
    destruct (is_kept line); [now rewrite <- app_assoc | reflexivity].
Qed.

End Txt.

(** The lines [generate_txt] emits for the content lines [lines]. *)
Lemma txt_fold_members (lines : list str) :
  forall (b : bool) (t : str) (f : list str) b' t' f',
    fold_left TxtExport.txt_step lines (b, t, f) = (b', t', f') ->
    forall l,
      In l f' <->
      In l f
      \/ (exists line,
             In line lines /\ TxtExport.is_section_header line = true
             /\ (l = [] \/ l = strip line
                 \/ l = repeat "-"%char (List.length (strip line))))
      \/ (In l lines /\ TxtExport.is_section_header l = false
          /\ Sidebar.is_kept l = true).
Proof.
  induction lines as [|line rest IH]; intros b t f b' t' f' E l.
  - cbn [fold_left] in E. injection E as _ _ <-.
    split; [tauto|]. intros [H | [(x & [] & _) | ([] & _)]]. assumption.
  - cbn [fold_left] in E.
    destruct (TxtExport.is_section_header line) eqn:Hh.
    + rewrite txt_step_header in E by assumption.
      rewrite (IH _ _ _ _ _ _ E l). clear E IH.
      rewrite in_app_iff. cbn [app In].
      split.
      * intros [[H | [H | [H | [H | []]]]] | [(x & Hx & Hhx & Hl) | (Hl & Hhl & Hk)]].
        -- destruct b; [|now left].
           apply in_app_iff in H as [H | [<- | []]]; [now left|].
           right; left; exists line; auto.
        -- subst l. right; left; exists line; auto.
        -- subst l. right; left; exists line; auto.
        -- subst l. right; left; exists line; auto.
        -- right; left; exists x; auto.
        -- right; right; auto.
      * intros [H | [(x & [-> | Hx] & Hhx & Hl) | ([-> | Hl] & Hhl & Hk)]].
        -- left; left. destruct b; [apply in_app_iff|]; auto.
        -- left; right.
           destruct Hl as [-> | [-> | ->]]; auto.
        -- right; left; exists x; auto.
        -- congruence.
        -- right; right; auto.
    + rewrite txt_step_other in E by assumption.
      rewrite (IH _ _ _ _ _ _ E l). clear E IH.
      split.
      * intros [H | [(x & Hx & Hhx & Hl) | (Hl & Hhl & Hk)]].
        -- destruct (Sidebar.is_kept line) eqn:Hk.
           ++ apply in_app_iff in H as [H | [<- | []]]; [now left|].
              right; right. cbn [In]. auto.
           ++ now left.
        -- right; left; exists x; cbn [In]; auto.
        -- right; right; cbn [In]; auto.
      * intros [H | [(x & [-> | Hx] & Hhx & Hl) | ([-> | Hl] & Hhl & Hk)]].
        -- left. destruct (Sidebar.is_kept line); [apply in_app_iff|]; auto.
        -- congruence.
        -- right; left; exists x; auto.
        -- left. rewrite Hk. apply in_app_iff. right. now left.
        -- right; right; auto.
Qed.

(** ** Splitting and joining *)

Lemma split_on_no_sep (sep : ascii) (s p : str) :
  In p (split_on sep s) -> ~ In sep p.
Proof.
  revert p. induction s as [|c r IH]; intros p H.
  - destruct H as [<- | []]. intros [].
  - cbn [split_on] in H. destruct (Ascii.eqb c sep) eqn:Ec.
    + destruct H as [<- | H]; [intros [] | now apply IH].
    + apply Ascii.eqb_neq in Ec.
      destruct (split_on sep r) as [|p0 ps].
      * destruct H as [<- | []]. intros [E | []]. congruence.
      * destruct H as [<- | H].
        -- intros [E | E]; [congruence|].
           exact (IH p0 (or_introl eq_refl) E).
        -- apply IH. now right.
Qed.

Lemma split_on_none (sep : ascii) (p : str) :
  ~ In sep p -> split_on sep p = [p].
Proof.
  induction p as [|c r IH]; intro H; [reflexivity|].
  cbn [split_on].
  destruct (Ascii.eqb c sep) eqn:Ec.
  - apply Ascii.eqb_eq in Ec. exfalso. apply H. now left.
  - rewrite IH by (intro F; apply H; now right). reflexivity.
Qed.

Lemma split_join (sep : ascii) (parts : list str) :
  parts <> [] ->
  (forall p, In p parts -> ~ In sep p) ->
  split_on sep (TxtExport.join [sep] parts) = parts.
Proof.
  induction parts as [|p rest IH]; intros Hne H; [contradiction|].
  destruct rest as [|q rest].
  - cbn [TxtExport.join]. apply split_on_none. apply H. now left.
  - change (TxtExport.join [sep] (p :: q :: rest))
      with (p ++ sep :: TxtExport.join [sep] (q :: rest)).
    rewrite split_on_app, IH.
    + rewrite split_on_none by (apply H; now left). reflexivity.
    + discriminate.
    + intros x Hx. apply H. now right.
Qed.

Lemma forallb_not_in (c : ascii) (s : str) :
  forallb (fun x => negb (Ascii.eqb x c)) s = true -> ~ In c s.
Proof.
  intros H Hin. rewrite forallb_forall in H.
  specialize (H c Hin). now rewrite Ascii.eqb_refl in H.
Qed.

Lemma txt_fold_prefix (lines : list str) :
  forall (b : bool) (t : str) (f : list str),
  exists b' t' body,
    fold_left TxtExport.txt_step lines (b, t, f) = (b', t', f ++ body).
Proof.
  induction lines as [|line rest IH]; intros b t f.
  - exists b, t, []. cbn. now rewrite app_nil_r.
  - cbn [fold_left].
    destruct (TxtExport.is_section_header line) eqn:Hh.
    + rewrite txt_step_header by assumption.
      destruct (IH true (strip line)
                  ((if b then f ++ [[]] else f)
                   ++ [[]] ++ [strip line]
                   ++ [repeat "-"%char (List.length (strip line))]))
        as (b' & t' & body & E).
      rewrite E. exists b', t'.
      destruct b; eexists; rewrite <- ?app_assoc; reflexivity.
    + rewrite txt_step_other by assumption.
      destruct (IH b t (if Sidebar.is_kept line then f ++ [line] else f))
        as (b' & t' & body & E).
      rewrite E. exists b', t'.
      destruct (Sidebar.is_kept line); eexists; rewrite <- ?app_assoc;
        reflexivity.
Qed.

Section TxtReport.

Import TxtExport Sidebar TxtFrame.

Lemma formatted_lines_fold (now content : str) :
  exists b t f,
    fold_left txt_step (split_on newline content)
      (false, ([] : str), header now)
    = (b, t, f)
    /\ formatted_lines now content = f ++ footer.
Proof.
  unfold formatted_lines. cbv zeta.
  match goal with
  | |- context [match ?X with pair _ _ => _ end] =>
      destruct X as [[b t] f] eqn:E
  end.
  exists b, t, f. split; [exact E | reflexivity].
Qed.

(** Membership in the list of lines of the report. *)
Lemma formatted_lines_members (now content l : str) :
  In l (formatted_lines now content) <->
  In l (header now) \/ In l footer
  \/ (exists line,
         In line (split_on newline content)
         /\ is_section_header line = true
         /\ (l = [] \/ l = strip line
             \/ l = repeat "-"%char (List.length (strip line))))
  \/ (In l (split_on newline content)
      /\ is_section_header l = false /\ is_kept l = true).
Proof.
  destruct (formatted_lines_fold now content) as (b & t & f & E & ->).
  rewrite in_app_iff, (txt_fold_members _ _ _ _ _ _ _ E l). tauto.
Qed.

Lemma header_free_of_newline (now l : str) :
  ~ In newline now -> In l (header now) -> ~ In newline l.
Proof.
  intros Hnow H.
  cbn [header In] in H.
  destruct H as [<- | [<- | [<- | [<- | [<- | []]]]]].
  - intro F. apply in_repeat in F. discriminate F.
  - now apply forallb_not_in.
  - intro F. apply in_app_iff in F as [F | F]; [|contradiction].
    revert F. now apply forallb_not_in.
  - intro F. apply in_repeat in F. discriminate F.
  - intros [].
Qed.

Lemma footer_free_of_newline (l : str) :
  In l footer -> ~ In newline l.
Proof.
  intro H. cbn [footer In] in H.
  destruct H as [<- | [<- | [<- | []]]].
  - intros [].
  - intro F. apply in_repeat in F. discriminate F.
  - now apply forallb_not_in.
Qed.

(** X7.  The report of [generate_txt] read back line by line is the list
    of lines the function built: the five lines of the header, the lines
    made from the content, and the three lines of the footer; no line of
    the content is cut or merged. *)
Theorem generate_txt_round_trip (now content : str) :
  ~ In newline now ->
  split_on newline (generate_txt now content) = formatted_lines now content
  /\ exists body,
      formatted_lines now content = header now ++ body ++ footer.
Proof.
  intro Hnow. split.
  - unfold generate_txt. apply split_join.
    + destruct (formatted_lines_fold now content) as (b & t & f & _ & ->).
      intro F. apply app_eq_nil in F as [_ F]. discriminate F.
    + intros l Hl. apply formatted_lines_members in Hl.
      destruct Hl as [H | [H | [(line & Hin & _ & H) | (Hin & _)]]].
      * now apply (header_free_of_newline now).
      * now apply footer_free_of_newline.
      * pose proof (split_on_no_sep _ _ _ Hin) as Hline.
        destruct H as [-> | [-> | ->]].
        -- intros [].
        -- intro F. apply Hline. now apply strip_subset.
        -- intro F. apply in_repeat in F. discriminate F.
      * now apply (split_on_no_sep _ _ _ Hin).
  - destruct (formatted_lines_fold now content) as (b & t & f & E & ->).
    destruct (txt_fold_prefix (split_on newline content) false [] (header now))
      as (b' & t' & body & E').
    pose proof (eq_trans (eq_sym E) E') as Q. injection Q as _ _ ->.
    exists body. symmetry. apply app_assoc.
Qed.

Lemma generate_txt_round_trip_witness :
  split_on newline (generate_txt (lit "2024-06-01 09:30") (lit "RISK SCORE"))
  = formatted_lines (lit "2024-06-01 09:30") (lit "RISK SCORE")
  /\ exists body,
      formatted_lines (lit "2024-06-01 09:30") (lit "RISK SCORE")
      = header (lit "2024-06-01 09:30") ++ body ++ footer.
Proof.
  apply (generate_txt_round_trip (lit "2024-06-01 09:30") (lit "RISK SCORE")).
  now apply forallb_not_in.
Defined.

(** X8.  No line of the report is a rule of 50 ["="]: the rules the
    sidebar writes under its section titles never reach the text
    export. *)
Theorem generate_txt_drops_rules (now content l : str) :
  In l (formatted_lines now content) ->
  strip l <> repeat "="%char 50.
Proof.
  intro Hl. apply formatted_lines_members in Hl.
  assert (Hcap : forall c s, In c s -> is_space c = false ->
                             c <> "="%char ->
                             strip s <> repeat "="%char 50).
  { intros c s Hc Hsp Hne F.
    pose proof (strip_keeps s c Hsp Hc) as Hin. rewrite F in Hin.
    apply in_repeat in Hin. contradiction. }
  destruct Hl as [H | [H | [(line & Hin & Hh & H) | (Hin & _ & Hk)]]].
  - cbn [header In] in H.
    destruct H as [<- | [<- | [<- | [<- | [<- | []]]]]];
      try (vm_compute; discriminate).
    apply (Hcap "G"%char); [now left | reflexivity | discriminate].
  - cbn [footer In] in H.
    destruct H as [<- | [<- | [<- | []]]]; vm_compute; discriminate.
  - destruct H as [-> | [-> | ->]].
    + vm_compute. discriminate.
    + destruct (header_has_capital line Hh) as [Hc | Hc].
      * apply (Hcap "D"%char);
          [now apply strip_keeps | reflexivity | discriminate].
      * apply (Hcap "R"%char);
          [now apply strip_keeps | reflexivity | discriminate].
    + intro F.
      assert (Hin' : In "="%char (strip (repeat "-"%char
                                          (List.length (strip line)))))
        by (rewrite F; now left).
      apply strip_subset, in_repeat in Hin'. discriminate Hin'.
  - unfold is_kept in Hk. apply andb_true_iff in Hk as [Hk _].
    intro F. apply str_eqb_eq in F. rewrite F in Hk. discriminate Hk.
Qed.

Lemma generate_txt_drops_rules_witness :
  strip (lit "RISK SCORE") <> repeat "="%char 50.
Proof.
  apply (generate_txt_drops_rules (lit "now")
           (lit "RISK SCORE") (lit "RISK SCORE")).
  vm_compute. tauto.
Defined.

End TxtReport.

Section TxtOfSidebar.

Import TxtExport Sidebar TxtFrame.

(** X9.  A content line that is not blank, is not a rule of 50 ["="] and
    names no section is in the report unchanged; and a line of the report
    outside the frame is empty, a section title without its outer blanks,
    the underline of that title and as long as it, or such a content
    line. *)
Theorem generate_txt_lines_spec (now content : str) :
  (forall line,
      In line (split_on newline content) ->
      is_section_header line = false -> is_kept line = true ->
      In line (formatted_lines now content))
  /\
  (forall l,
      In l (formatted_lines now content) ->
      In l (header now) \/ In l footer \/ l = []
      \/ (exists line,
             In line (split_on newline content)
             /\ is_section_header line = true
             /\ (l = strip line
                 \/ l = repeat "-"%char (List.length (strip line))))
      \/ (In l (split_on newline content)
          /\ is_section_header l = false /\ is_kept l = true)).
Proof.
  split.
  - intros line Hin Hh Hk. apply formatted_lines_members. auto 6.
  - intros l Hl. apply formatted_lines_members in Hl.
    destruct Hl as [H | [H | [(line & Hin & Hh & H) | H]]]; auto.
    destruct H as [-> | H]; [auto|].
    right; right; right; left. exists line. auto.
Qed.

Lemma export_lines (summary risks : str) :
  truthy summary = true -> truthy risks = true ->
  split_on newline (export_content true true summary risks)
  = [lit "DOCUMENT SUMMARY"; repeat "="%char 50]
    ++ split_on newline summary
    ++ [[]; lit "RISK ANALYSIS"; repeat "="%char 50]
    ++ split_on newline risks
    ++ [[]; []].
Proof.
  intros Hs Hr. unfold export_content. rewrite Hs, Hr. cbn [andb].
  rewrite <- !app_assoc. cbn [app].
  assert (Hnl : forall s, split_on newline (newline :: s)
                          = [] :: split_on newline s)
    by (intro s; cbn [split_on]; now rewrite Ascii.eqb_refl).
  rewrite !split_on_app, Hnl, !split_on_app, !Hnl.
  rewrite (split_on_none newline (lit "DOCUMENT SUMMARY"))
    by now apply forallb_not_in.
  rewrite (split_on_none newline (lit "RISK ANALYSIS"))
    by now apply forallb_not_in.
  rewrite !(split_on_none newline (repeat "="%char 50))
    by now apply forallb_not_in.
  change (split_on newline []) with [@nil ascii].
  rewrite <- ?app_assoc. reflexivity.
Qed.

(** X10.  The text export of a summary and a risks text, none of whose
    lines names a section: the header, the title DOCUMENT SUMMARY
    underlined, the lines of the summary that are neither blank nor a
    rule of 50 ["="], in their order, two empty lines, the title RISK
    ANALYSIS underlined, the lines of the risks text alike, and the
    footer. *)
Theorem generate_txt_of_export (now summary risks : str) :
  truthy summary = true -> truthy risks = true ->
  (forall line, In line (split_on newline summary) ->
                is_section_header line = false) ->
  (forall line, In line (split_on newline risks) ->
                is_section_header line = false) ->
  formatted_lines now (export_content true true summary risks)
  = header now
    ++ [[]; lit "DOCUMENT SUMMARY"; repeat "-"%char 16]
    ++ filter is_kept (split_on newline summary)
    ++ [[]; []; lit "RISK ANALYSIS"; repeat "-"%char 13]
    ++ filter is_kept (split_on newline risks)
    ++ footer.
Proof.
  intros Hs Hr Hsum Hrisk.
  destruct (formatted_lines_fold now (export_content true true summary risks))
    as (b & t & f & E & ->).
  rewrite export_lines in E by assumption.
  rewrite !fold_left_app in E.
  cbn [fold_left] in E.
  rewrite (txt_step_header false [] (header now) (lit "DOCUMENT SUMMARY"))
    in E by reflexivity.
  rewrite (txt_step_other _ _ _ (repeat "="%char 50)) in E by reflexivity.
  change (is_kept (repeat "="%char 50)) with false in E.
  rewrite (txt_fold_plain (split_on newline summary)) in E by assumption.
  rewrite (txt_step_other _ _ _ []) in E by reflexivity.
  change (is_kept []) with false in E.
  rewrite (txt_step_header true _ _ (lit "RISK ANALYSIS")) in E
    by reflexivity.
  rewrite (txt_step_other _ _ _ (repeat "="%char 50)) in E by reflexivity.
  change (is_kept (repeat "="%char 50)) with false in E.
  rewrite (txt_fold_plain (split_on newline risks)) in E by assumption.
  rewrite !(txt_step_other _ _ _ []) in E by reflexivity.
  change (is_kept []) with false in E.
  apply (f_equal snd) in E. cbn [snd] in E. subst f.
  change (strip (lit "DOCUMENT SUMMARY")) with (lit "DOCUMENT SUMMARY").
  change (strip (lit "RISK ANALYSIS")) with (lit "RISK ANALYSIS").
  change (List.length (lit "DOCUMENT SUMMARY")) with 16%nat.
  change (List.length (lit "RISK ANALYSIS")) with 13%nat.
  rewrite <- ?app_assoc. cbn [app]. reflexivity.
Qed.

Lemma generate_txt_of_export_witness :
  formatted_lines (lit "now")
    (export_content true true (lit "Short summary") (lit "One risk"))
  = header (lit "now")
    ++ [[]; lit "DOCUMENT SUMMARY"; repeat "-"%char 16]
    ++ filter is_kept (split_on newline (lit "Short summary"))
    ++ [[]; []; lit "RISK ANALYSIS"; repeat "-"%char 13]
    ++ filter is_kept (split_on newline (lit "One risk"))
    ++ footer.
Proof.
  apply (generate_txt_of_export (lit "now") (lit "Short summary")
           (lit "One risk")).
  - reflexivity.
  - reflexivity.
  - intros line [<- | []]. reflexivity.
  - intros line [<- | []]. reflexivity.
Defined.

End TxtOfSidebar.

(** ** The relative error of the rounding *)

Lemma rne_upper_half (a b : Z) :
  0 <= a -> 0 < b -> 0 <= rne a b /\ 2 * (rne a b * b) <= 2 * a + b.
Proof.
  intros Ha Hb. split; [now apply rne_nonneg|].
  unfold rne.
  pose proof (Z.div_mod a b ltac:(lia)) as E.
  pose proof (Z.mod_pos_bound a b Hb) as R.
  assert (Q : a / b * b = a - a mod b) by lia.
  destruct (2 * (a mod b) <? b) eqn:C1; [lia|].
  apply Z.ltb_ge in C1.
  assert (Q' : (a / b + 1) * b = a - a mod b + b) by lia.
  destruct (b <? 2 * (a mod b)); [lia|].
  destruct (Z.even (a / b)); lia.
Qed.

(** The exponent [round53] chooses leaves at least 53 bits to the
    significand. *)
Lemma round53_normal (n d : Z) :
  0 < n -> 0 < d ->
  exists e,
    round53 n d
    = (if 0 <=? e then (rne (fst (scaled n d e)) (snd (scaled n d e)) * 2 ^ e, 1)
       else (rne (fst (scaled n d e)) (snd (scaled n d e)), 2 ^ (- e)))
    /\ 2 ^ 52 * snd (scaled n d e) <= fst (scaled n d e).
Proof.
  intros Hn Hd. unfold round53.
  destruct (n <=? 0) eqn:En; [apply Z.leb_le in En; lia|]. clear En.
  set (e0 := Z.log2 n - Z.log2 d - 52).
  destruct (scaled n d e0) as [A0 B0] eqn:S0.
  destruct (A0 / B0 <? 2 ^ 52) eqn:C.
  - exists (e0 - 1).
    split; [destruct (scaled n d (e0 - 1)); reflexivity|].
    pose proof (Z.log2_spec n Hn) as [Ln _].
    pose proof (Z.log2_spec d Hd) as [_ Ld].
    pose proof (Z.log2_nonneg d) as Hld.
    pose proof (Z.log2_nonneg n) as Hln.
    unfold scaled. destruct (0 <=? e0 - 1) eqn:Ee; cbn [fst snd].
    + apply Z.leb_le in Ee.
      assert (P : 2 ^ 52 * 2 ^ (e0 - 1) * 2 ^ Z.succ (Z.log2 d)
                  = 2 ^ Z.log2 n).
      { rewrite <- !Z.pow_add_r by lia. f_equal. unfold e0. lia. }
      assert (0 < 2 ^ 52 * 2 ^ (e0 - 1))
        by (apply Z.mul_pos_pos; apply Z.pow_pos_nonneg; lia).
      assert (2 ^ 52 * 2 ^ (e0 - 1) * d
              <= 2 ^ 52 * 2 ^ (e0 - 1) * 2 ^ Z.succ (Z.log2 d))
        by (apply Z.mul_le_mono_nonneg_l; lia).
      lia.
    + apply Z.leb_gt in Ee.
      assert (P : 2 ^ Z.log2 n * 2 ^ (- (e0 - 1))
                  = 2 ^ 52 * 2 ^ Z.succ (Z.log2 d)).
      { rewrite <- !Z.pow_add_r by (unfold e0 in *; lia).
        f_equal. unfold e0. lia. }
      assert (0 < 2 ^ (- (e0 - 1))) by (apply Z.pow_pos_nonneg; lia).
      assert (2 ^ Z.log2 n * 2 ^ (- (e0 - 1)) <= n * 2 ^ (- (e0 - 1)))
        by (apply Z.mul_le_mono_nonneg_r; lia).
      assert (2 ^ 52 * d <= 2 ^ 52 * 2 ^ Z.succ (Z.log2 d))
        by (apply Z.mul_le_mono_nonneg_l; lia).
      lia.
  - exists e0. rewrite S0. cbn [fst snd].
    split; [reflexivity|].
    apply Z.ltb_ge in C.
    destruct (scaled_pos n d e0 Hn Hd) as [_ HB]. rewrite S0 in HB.
    cbn [snd] in HB.
    pose proof (Z.mul_div_le A0 B0 HB).
    assert (2 ^ 52 * B0 <= A0 / B0 * B0)
      by (apply Z.mul_le_mono_nonneg_r; lia).
    lia.
Qed.

(** Rounding to a double raises a quotient by at most one part in
    [2^53]. *)
Lemma round53_relative (n d : Z) :
  0 <= n -> 0 < d ->
  0 <= fst (round53 n d) /\ 0 < snd (round53 n d)
  /\ fst (round53 n d) * d * 2 ^ 53
     <= n * snd (round53 n d) * (2 ^ 53 + 1).
Proof.
  intros Hn Hd.
  destruct (round53_sound n d Hd) as [Ha Hb].
  split; [assumption|]. split; [assumption|].
  destruct (Z.eq_dec n 0) as [-> | Hn0].
  { change (round53 0 d) with (0, 1). cbn [fst snd]. lia. }
  destruct (round53_normal n d ltac:(lia) Hd) as (e & -> & N).
  destruct (scaled_pos n d e ltac:(lia) Hd) as [HA HB].
  pose proof (rne_upper_half _ _ (Z.lt_le_incl _ _ HA) HB) as [Hm R].
  change (2 ^ 53) with (2 * 2 ^ 52).
  set (m := rne (fst (scaled n d e)) (snd (scaled n d e))) in *.
  assert (K : m * snd (scaled n d e) * (2 * 2 ^ 52)
              <= fst (scaled n d e) * (2 * 2 ^ 52 + 1)).
  { change (2 ^ 52) with 4503599627370496 in *. lia. }
  clearbody m. clear R N HA.
  unfold scaled in *.
  destruct (0 <=? e) eqn:Ee; cbn [fst snd] in *.
  - replace (m * 2 ^ e * d * (2 * 2 ^ 52))
      with (m * (d * 2 ^ e) * (2 * 2 ^ 52)) by ring.
    lia.
  - replace (n * 2 ^ (- e) * (2 * 2 ^ 52 + 1))
      with (n * 2 ^ (- e) * (2 * 2 ^ 52 + 1)) by ring.
    lia.
Qed.

(** ** The risk visualizer *)

Section Visual.

Import Visualizer.

Lemma bar_in_unit_interval (x total : Z) :
  0 <= x <= total -> 0 < total -> in_unit_interval (round53 x total).
Proof.
  intros Hx Ht. unfold in_unit_interval.
  destruct (Z.eq_dec x 0) as [-> | Hx0].
  { change (round53 0 total) with (0, 1). cbn [fst snd]. lia. }
  destruct (round53_bracket x total 0 1 0 Ht) as (B & L & U);
    try (change (2 ^ 0) with 1); try (change (2 ^ 52) with 4503599627370496);
    try lia.
Qed.

(** The percentage written for [x] of [total] items, against the exact
    share. *)
Lemma percentage_bound (x total : Z) :
  0 <= x -> 0 < total ->
  0 <= to_int (mul_int (round53 x total) 100)
  /\ to_int (mul_int (round53 x total) 100) * total * (2 ^ 53 * 2 ^ 53)
     <= 100 * ((2 ^ 53 + 1) * (2 ^ 53 + 1)) * x.
Proof.
  intros Hx Ht. unfold to_int, mul_int.
  destruct (round53_relative x total Hx Ht) as (Ha1 & Hb1 & S3).
  set (a1 := fst (round53 x total)) in *.
  set (b1 := snd (round53 x total)) in *.
  destruct (round53_relative (a1 * 100) b1 ltac:(lia) Hb1)
    as (Ha2 & Hb2 & S2).
  set (a2 := fst (round53 (a1 * 100) b1)) in *.
  set (b2 := snd (round53 (a1 * 100) b1)) in *.
  pose proof (Z.div_pos a2 b2 Ha2 Hb2) as Hp.
  pose proof (Z.mul_div_le a2 b2 Hb2) as S1.
  set (hp := a2 / b2) in *.
  assert (HX : 0 < 2 ^ 53) by reflexivity.
  set (X := 2 ^ 53) in *. clearbody X a1 b1 a2 b2 hp.
  split; [assumption|].
  apply (Z.mul_le_mono_pos_r _ _ (b1 * b2)); [now apply Z.mul_pos_pos|].
  assert (N1 : 0 <= b1 * X * total * X)
    by (repeat apply Z.mul_nonneg_nonneg; lia).
  assert (N2 : 0 <= total * X) by (apply Z.mul_nonneg_nonneg; lia).
  assert (N3 : 0 <= 100 * b2 * (X + 1))
    by (repeat apply Z.mul_nonneg_nonneg; lia).
  pose proof (Z.mul_le_mono_nonneg_r _ _ _ N1 S1) as E1.
  pose proof (Z.mul_le_mono_nonneg_r _ _ _ N2 S2) as E2.
  pose proof (Z.mul_le_mono_nonneg_r _ _ _ N3 S3) as E3.
  replace (hp * total * (X * X) * (b1 * b2))
    with (b2 * hp * (b1 * X * total * X)) by ring.
  replace (100 * ((X + 1) * (X + 1)) * x * (b1 * b2))
    with (x * b1 * (X + 1) * (100 * b2 * (X + 1))) by ring.
  replace (a2 * (b1 * X * total * X))
    with (a2 * b1 * X * (total * X)) in E1 by ring.
  replace (a1 * 100 * b2 * (X + 1) * (total * X))
    with (a1 * total * X * (100 * b2 * (X + 1))) in E2 by ring.
  lia.
Qed.

Lemma percentages_sum (h m total : Z) :
  0 <= h -> 0 <= m -> h + m <= total -> 0 < total ->
  let hp := to_int (mul_int (round53 h total) 100) in
  let mp := to_int (mul_int (round53 m total) 100) in
  0 <= hp /\ 0 <= mp /\ hp + mp <= 100.
Proof.
  intros Hh Hm Hs Ht. cbv zeta.
  destruct (percentage_bound h total Hh Ht) as [Hp1 B1].
  destruct (percentage_bound m total Hm Ht) as [Hp2 B2].
  set (hp := to_int _) in *. set (mp := to_int (mul_int (round53 m _) _)) in *.
  clearbody hp mp.
  split; [assumption|]. split; [assumption|].
  change (2 ^ 53) with 9007199254740992 in *.
  destruct (Z_le_gt_dec (hp + mp) 100) as [|Hgt]; [assumption|exfalso].
  assert (101 * total <= (hp + mp) * total)
    by (apply Z.mul_le_mono_nonneg_r; lia).
  lia.
Qed.

End Visual.

Section VisualShown.

Import Visualizer.

(** X11.  [display_risk_visualizer] shows "no risk data" exactly for an
    empty or non-string value and never its error message.  For a
    non-empty string it never shows the high risk level, every value it
    gives to a progress bar lies between 0 and 1, the distribution is
    always shown, and the three percentages lie between 0 and 100 and add
    up to 100. *)
Theorem visualizer_bars_and_percentages (v : pyval) :
  match display_risk_visualizer v with
  | NoRiskData => v = PyStr [] \/ isinstance_str v = false
  | VisualError => False
  | Shown level overall_bar bars top =>
      level <> High
      /\ in_unit_interval overall_bar
      /\ exists d,
          bars = Some d
          /\ in_unit_interval (high_bar d)
          /\ in_unit_interval (medium_bar d)
          /\ in_unit_interval (low_bar d)
          /\ 0 <= high_pct d <= 100
          /\ 0 <= medium_pct d <= 100
          /\ 0 <= low_pct d <= 100
          /\ high_pct d + medium_pct d + low_pct d = 100
  end.
Proof.
  unfold display_risk_visualizer.
  destruct v as [| b | n | text]; cbn [py_truthy isinstance_str negb orb];
    [ right; reflexivity
    | rewrite orb_true_r; right; reflexivity
    | rewrite orb_true_r; right; reflexivity
    | ].
  destruct text as [|c r]; cbn [truthy negb]; [left; reflexivity|].
  destruct (calculate_risk_score_nonempty (c :: r) eq_refl)
    as (h & m & l & Hh & Hm & Hl & Ht & _ & E).
  rewrite E.
  pose proof (spec_score_between h m l 1 3) as B.
  specialize (B ltac:(lia) ltac:(lia) ltac:(lia) ltac:(lia) ltac:(lia)).
  set (s := Spec.score h m l) in *. clearbody s.
  rewrite (truediv_some s 100) by discriminate.
  destruct (0 <? h + m + l) eqn:Et; [|apply Z.ltb_ge in Et; lia].
  rewrite Z.max_l by lia.
  rewrite !truediv_some by lia.
  pose proof (percentages_sum h m (h + m + l) Hh Hm ltac:(lia) ltac:(lia))
    as P. cbv zeta in P.
  split; [|split].
  - destruct (70 <=? s) eqn:C; [apply Z.leb_le in C; lia|].
    destruct (40 <=? s); discriminate.
  - destruct (round53_sound s 100 ltac:(lia)) as [Ha Hb].
    destruct (fst (round53 s 100) * 1 <=? 1 * snd (round53 s 100)) eqn:C.
    + apply Z.leb_le in C. unfold in_unit_interval. lia.
    + unfold in_unit_interval. cbn [fst snd]. lia.
  - eexists. split; [reflexivity|]. cbn [high_bar medium_bar low_bar
                                        high_pct medium_pct low_pct].
    split; [apply bar_in_unit_interval; lia|].
    split; [apply bar_in_unit_interval; lia|].
    split; [apply bar_in_unit_interval; lia|].
    lia.
Qed.

Lemma lower_has_no_capital_i (text : str) : ~ In "I"%char (lower text).
Proof.
  unfold lower. intro H. apply in_map_iff in H as (c & E & _).
  revert E. destruct c as [[] [] [] [] [] [] [] []]; discriminate.
Qed.

(** X12.  The keyword "IP rights" of the key risk indicators is never
    found, because it is looked for in the lower-cased text: the count of
    the pair "intellectual property/IP rights" is the number of
    occurrences of "intellectual property" alone. *)
Theorem ip_rights_never_counted (risks_text : str) :
  pair_count risks_text ("intellectual property", "IP rights")%string
  = Z.of_nat (count (lower risks_text) (lit "intellectual property")).
Proof.
  unfold pair_count. cbn [fst snd map sum fold_right].
  rewrite (count_absent (lower risks_text) (lit "IP rights")).
  - lia.
  - discriminate.
  - destruct (contains (lit "IP rights") (lower risks_text)) eqn:C;
      [|reflexivity].
    apply contains_head in C.
    now apply lower_has_no_capital_i in C.
Qed.

End VisualShown.

Section TopRiskAreas.

Import Visualizer.

Lemma keyword_counts_fold (text : str) (pairs : list (string * string))
    (acc : list (str * Z)) :
  fold_left
    (fun keyword_counts kw_pair =>
       let count := pair_count text kw_pair in
       if 0 <? count
       then keyword_counts ++ [(pair_label kw_pair, count)]
       else keyword_counts)
    pairs acc
  = acc ++ map (fun p => (pair_label p, pair_count text p))
               (filter (fun p => 0 <? pair_count text p) pairs).
Proof.
  revert acc. induction pairs as [|p rest IH]; intro acc.
  - cbn. now rewrite app_nil_r.
  - cbn [fold_left filter]. cbv zeta. rewrite IH.
    destruct (0 <? pair_count text p); [|reflexivity].
    cbn [map]. now rewrite <- app_assoc.
Qed.

Lemma insert_by_count_perm (x : str * Z) (l : list (str * Z)) :
  Permutation (insert_by_count x l) (x :: l).
Proof.
  induction l as [|y r IH]; cbn [insert_by_count]; [reflexivity|].
  destruct (snd x <? snd y); [|reflexivity].
  rewrite IH. apply perm_swap.
Qed.

Lemma sort_by_count_perm (l : list (str * Z)) :
  Permutation (sort_by_count l) l.
Proof.
  induction l as [|x r IH]; cbn [sort_by_count]; [reflexivity|].
  rewrite insert_by_count_perm. now apply perm_skip.
Qed.

Lemma insert_by_count_sorted (x : str * Z) (l : list (str * Z)) :
  StronglySorted by_count_desc l ->
  StronglySorted by_count_desc (insert_by_count x l).
Proof.
  induction l as [|y r IH]; intro H; cbn [insert_by_count].
  - constructor; constructor.
  - apply StronglySorted_inv in H as [Hr Hy].
    destruct (snd x <? snd y) eqn:C.
    + apply Z.ltb_lt in C. constructor; [now apply IH|].
      apply Forall_forall. intros z Hz.
      apply (Permutation_in _ (insert_by_count_perm x r)) in Hz.
      destruct Hz as [<- | Hz]; [unfold by_count_desc; lia|].
      rewrite Forall_forall in Hy. now apply Hy.
    + apply Z.ltb_ge in C. constructor; [now constructor|].
      constructor; [exact C|].
      apply Forall_forall. intros z Hz.
      rewrite Forall_forall in Hy. specialize (Hy z Hz).
      unfold by_count_desc in *. lia.
Qed.

Lemma sort_by_count_sorted (l : list (str * Z)) :
  StronglySorted by_count_desc (sort_by_count l).
Proof.
  induction l as [|x r IH]; cbn [sort_by_count]; [constructor|].
  now apply insert_by_count_sorted.
Qed.

Lemma sorted_app_inv (l1 l2 : list (str * Z)) :
  StronglySorted by_count_desc (l1 ++ l2) ->
  StronglySorted by_count_desc l1
  /\ forall x y, In x l1 -> In y l2 -> by_count_desc x y.
Proof.
  induction l1 as [|a l1 IH]; cbn [app]; intro H.
  - split; [constructor | intros x y []].
  - apply StronglySorted_inv in H as [Hs Ha].
    destruct (IH Hs) as [S1 C]. rewrite Forall_forall in Ha.
    split.
    + constructor; [assumption|].
      apply Forall_forall. intros z Hz. apply Ha, in_or_app. now left.
    + intros x y [<- | Hx] Hy; [|now apply C].
      apply Ha, in_or_app. now right.
Qed.

(** X13.  The key risk indicators are at most five entries, ordered by
    falling count; each is one of the nine keyword pairs with its count
    of occurrences in the lower-cased text, which is positive; and a pair
    that occurs in the text but is not among the entries has a count no
    larger than any entry. *)
Theorem top_risk_areas_spec (risks_text : str) :
  let top := top_risk_areas risks_text in
  (List.length top <= 5)%nat
  /\ StronglySorted by_count_desc top
  /\ (forall x, In x top ->
                0 < snd x
                /\ exists p, In p risk_keywords
                             /\ x = (pair_label p, pair_count risks_text p))
  /\ (forall p, In p risk_keywords -> 0 < pair_count risks_text p ->
                In (pair_label p, pair_count risks_text p) top
                \/ forall x, In x top -> pair_count risks_text p <= snd x).
Proof.
  cbv zeta. unfold top_risk_areas.
  set (sorted := sort_by_count (keyword_counts risks_text)).
  assert (Hmem : forall x, In x sorted <->
                           exists p, In p risk_keywords
                                     /\ 0 < pair_count risks_text p
                                     /\ x = (pair_label p,
                                             pair_count risks_text p)).
  { intro x. unfold sorted, keyword_counts.
    rewrite keyword_counts_fold. cbn [app].
    split.
    - intro H. apply (Permutation_in _ (sort_by_count_perm _)) in H.
      apply in_map_iff in H as (p & <- & Hp).
      apply filter_In in Hp as [Hp Hpos]. apply Z.ltb_lt in Hpos.
      exists p. auto.
    - intros (p & Hp & Hpos & ->).
      apply (Permutation_in _ (Permutation_sym (sort_by_count_perm _))).
      apply in_map_iff. exists p. split; [reflexivity|].
      apply filter_In. split; [assumption | now apply Z.ltb_lt]. }
  pose proof (sort_by_count_sorted (keyword_counts risks_text)) as Hs.
  fold sorted in Hs. rewrite <- (firstn_skipn 5 sorted) in Hs.
  apply sorted_app_inv in Hs as [Hs1 Hcross].
  split; [rewrite length_firstn; lia|]. split; [assumption|]. split.
  - intros x Hx. apply in_firstn in Hx. apply Hmem in Hx.
    destruct Hx as (p & Hp & Hpos & ->). cbn [snd]. eauto.
  - intros p Hp Hpos.
    assert (Hin : In (pair_label p, pair_count risks_text p) sorted)
      by (apply Hmem; eauto).
    rewrite <- (firstn_skipn 5 sorted) in Hin.
    apply in_app_or in Hin as [Hin | Hin]; [now left | right].
    intros x Hx. exact (Hcross x _ Hx Hin).
Qed.

End TopRiskAreas.

(** ** The Word export *)

Section Docx.

Import DocxExport DocxAdded.

Lemma split_first_spec (sep : ascii) (s : str) :
  contains [sep] s = true ->
  s = fst (split_first sep s) ++ sep :: snd (split_first sep s)
  /\ ~ In sep (fst (split_first sep s)).
Proof.
  induction s as [|c r IH]; intro H.
  - cbn in H. discriminate.
  - cbn [split_first]. destruct (Ascii.eqb c sep) eqn:Ec.
    + apply Ascii.eqb_eq in Ec. subst c. cbn [fst snd app].
      split; [reflexivity | intros []].
    + assert (Hr : contains [sep] r = true).
      { apply contains_char in H. apply contains_char.
        destruct H as [-> | H]; [|assumption].
        rewrite Ascii.eqb_refl in Ec. discriminate. }
      destruct (IH Hr) as [E N].
      destruct (split_first sep r) as [before after]. cbn [fst snd] in *.
      split; [cbn [app]; now rewrite <- E|].
      intros [-> | F]; [|contradiction].
      rewrite Ascii.eqb_refl in Ec. discriminate.
Qed.

Lemma startswith_before (w a b : str) (c : ascii) :
  ~ In c w -> startswith w (a ++ c :: b) = true -> startswith w a = true.
Proof.
  revert a. induction w as [|x w IH]; intros a Hc H; [reflexivity|].
  destruct a as [|y a]; cbn [app startswith] in *.
  - apply andb_true_iff in H as [H _]. apply Ascii.eqb_eq in H.
    exfalso. apply Hc. now left.
  - apply andb_true_iff in H as [H1 H2]. rewrite H1. cbn [andb].
    apply IH; [|assumption]. intro F. apply Hc. now right.
Qed.

Lemma startswith_rstrip (w s : str) :
  w <> [] -> (forall c, In c w -> is_space c = false) ->
  startswith w s = true -> startswith w (rstrip s) = true.
Proof.
  revert s. induction w as [|x w IH]; intros s Hne Hsp H; [contradiction|].
  destruct s as [|y r]; [discriminate H|].
  cbn [startswith] in H. apply andb_true_iff in H as [H1 H2].
  pose proof H1 as Exy. apply Ascii.eqb_eq in Exy. subst y.
  cbn [rstrip]. destruct w as [|x' w].
  - destruct (rstrip r).
    + rewrite (Hsp x (or_introl eq_refl)). cbn. now rewrite Ascii.eqb_refl.
    + cbn. now rewrite Ascii.eqb_refl.
  - assert (IH' : startswith (x' :: w) (rstrip r) = true).
    { apply IH; [discriminate | | assumption].
      intros c Hc. apply Hsp. now right. }
    destruct (rstrip r) as [|k kept]; [discriminate IH'|].
    cbn [startswith]. rewrite Ascii.eqb_refl. exact IH'.
Qed.

Lemma startswith_strip (w s : str) :
  w <> [] -> (forall c, In c w -> is_space c = false) ->
  startswith w s = true -> startswith w (strip s) = true.
Proof.
  intros Hne Hsp H. unfold strip.
  apply startswith_rstrip; try assumption.
  destruct w as [|x w]; [contradiction|].
  destruct s as [|y r]; [discriminate H|].
  pose proof H as H'. cbn [startswith] in H'.
  apply andb_true_iff in H' as [H1 _]. apply Ascii.eqb_eq in H1. subst y.
  cbn [lstrip]. now rewrite (Hsp x (or_introl eq_refl)).
Qed.

Lemma startswith_contains (w s : str) :
  startswith w s = true -> contains w s = true.
Proof. intro H. destruct s; cbn [contains]; now rewrite H. Qed.

(** The label keeps the keyword the line starts with. *)
Lemma priority_keeps_keyword (w line : str) :
  w <> [] -> (forall c, In c w -> is_space c = false) ->
  ~ In ":"%char w ->
  contains (lit ":") line = true ->
  startswith w (lower line) = true ->
  startswith w (lower (strip (fst (split_first ":"%char line)))) = true.
Proof.
  intros Hne Hsp Hcolon Hc H.
  destruct (split_first_spec ":"%char line Hc) as [E _].
  rewrite <- strip_lower. apply startswith_strip; try assumption.
  rewrite E in H. rewrite lower_app in H.
  change (lower (":"%char :: snd (split_first ":"%char line)))
    with (":"%char :: lower (snd (split_first ":"%char line))) in H.
  exact (startswith_before _ _ _ _ Hcolon H).
Qed.

Lemma docx_step_adds (current : option section) (doc : list element)
    (line : str) :
  exists current' added,
    docx_step (current, doc) line = (current', doc ++ added)
    /\ Forall (added_by line) added.
Proof.
  unfold docx_step.
  destruct (contains (lit "DOCUMENT SUMMARY") line);
    [eexists _, _; split; [reflexivity|]; repeat constructor|].
  destruct (contains (lit "RISK SCORE") line);
    [eexists _, _; split; [reflexivity|]; repeat constructor|].
  destruct (contains (lit "RISK ANALYSIS") line);
    [eexists _, _; split; [reflexivity|]; repeat constructor|].
  destruct (truthy (strip line)) eqn:Hs; cbn [andb];
    [|exists current, []; split; [now rewrite app_nil_r | constructor]].
  destruct (startswith (lit "=") line) eqn:He; cbn [negb andb];
    [exists current, []; split; [now rewrite app_nil_r | constructor]|].
  destruct (startswith (lit "-") line) eqn:Hd; cbn [negb];
    [exists current, []; split; [now rewrite app_nil_r | constructor]|].
  destruct (is_risk_analysis current);
    [|eexists _, _; split; [reflexivity|]; repeat constructor; assumption].
  destruct (contains (lit ":") line) eqn:Hc;
    [|rewrite andb_false_r; eexists _, _; split; [reflexivity|];
      repeat constructor; assumption].
  rewrite andb_true_r.
  destruct (startswith (lit "high") (lower line)) eqn:H1; cbn [orb].
  { destruct (split_first ":"%char line) as [before after] eqn:S.
    eexists _, _; split; [reflexivity|].
    apply Forall_cons; [|apply Forall_nil]. apply AddedPriority.
    left. change before with (fst (before, after)). rewrite <- S.
    apply priority_keeps_keyword; try assumption; try discriminate.
    - intros c Hin. cbn in Hin.
      repeat (destruct Hin as [<- | Hin]; [reflexivity|]). contradiction.
    - now apply forallb_not_in. }
  destruct (startswith (lit "medium") (lower line)) eqn:H2; cbn [orb].
  { destruct (split_first ":"%char line) as [before after] eqn:S.
    eexists _, _; split; [reflexivity|].
    apply Forall_cons; [|apply Forall_nil]. apply AddedPriority.
    right; left. change before with (fst (before, after)). rewrite <- S.
    apply priority_keeps_keyword; try assumption; try discriminate.
    - intros c Hin. cbn in Hin.
      repeat (destruct Hin as [<- | Hin]; [reflexivity|]). contradiction.
    - now apply forallb_not_in. }
  destruct (startswith (lit "low") (lower line)) eqn:H3.
  { destruct (split_first ":"%char line) as [before after] eqn:S.
    eexists _, _; split; [reflexivity|].
    apply Forall_cons; [|apply Forall_nil]. apply AddedPriority.
    right; right. change before with (fst (before, after)). rewrite <- S.
    apply priority_keeps_keyword; try assumption; try discriminate.
    - intros c Hin. cbn in Hin.
      repeat (destruct Hin as [<- | Hin]; [reflexivity|]). contradiction.
    - now apply forallb_not_in. }
  eexists _, _; split; [reflexivity|]. repeat constructor; assumption.
Qed.

(** Every element of the body is one of the five of the frame or was
    added for a line of the content. *)
Lemma docx_fold_elements (lines : list str) :
  forall (current : option section) (doc : list element),
  exists current' added,
    fold_left docx_step lines (current, doc) = (current', doc ++ added)
    /\ Forall (fun e => exists line, In line lines /\ added_by line e)
              added.
Proof.
  induction lines as [|line rest IH]; intros current doc.
  - exists current, []. split; [cbn; now rewrite app_nil_r | constructor].
  - cbn [fold_left].
    destruct (docx_step_adds current doc line) as (c1 & a1 & E1 & F1).
    rewrite E1.
    destruct (IH c1 (doc ++ a1)) as (c2 & a2 & E2 & F2).
    rewrite E2. exists c2, (a1 ++ a2).
    split; [now rewrite app_assoc|].
    apply Forall_app. split.
    + eapply Forall_impl; [|exact F1].
      intros e He. exists line. split; [now left | assumption].
    + eapply Forall_impl; [|exact F2].
      intros e (l & Hl & He). exists l. split; [now right | assumption].
Qed.

End Docx.

Section DocxBody.

Import DocxExport DocxAdded DocxLines.

Lemma docx_body_elements (now content : str) (e : element) :
  In e (doc_body (generate_docx now content)) ->
  docx_frame_ok now e
  \/ exists line,
      In line (split_on TxtExport.newline content) /\ added_by line e.
Proof.
  unfold generate_docx. cbv zeta.
  match goal with
  | |- context [fold_left docx_step ?ls (?c, ?d)] =>
      destruct (docx_fold_elements ls c d) as (c' & added & E & F);
      rewrite E
  end.
  cbn [doc_body]. intro H. unfold docx_frame_ok.
  apply in_app_or in H as [H | H].
  - apply in_app_or in H as [H | H].
    + cbn [In] in H. intuition auto.
    + right. rewrite Forall_forall in F. now apply F.
  - cbn [In] in H. intuition auto.
Qed.

End DocxBody.

Section DocxTheorems.

Import DocxExport DocxAdded DocxLines.

(** X14.  Every bold run of the Word document is a priority label of the
    risk analysis section: its text is a priority followed by a colon and
    a space, and the priority starts, in any case, with high, medium or
    low.  A label that starts with high is red, one that starts with
    medium is red or orange, and only a label that starts with low can be
    without colour. *)
Theorem docx_priority_labels (now content : str) (runs : list run)
    (align : alignment) (r : run) :
  In (Paragraph runs align) (doc_body (generate_docx now content)) ->
  In r runs -> run_bold r = true ->
  exists priority,
    run_text r = priority ++ lit ": "
    /\ (startswith (lit "high") (lower priority) = true
        \/ startswith (lit "medium") (lower priority) = true
        \/ startswith (lit "low") (lower priority) = true)
    /\ (startswith (lit "high") (lower priority) = true ->
        run_color r = Some (255, 0, 0))
    /\ (startswith (lit "medium") (lower priority) = true ->
        run_color r = Some (255, 0, 0)
        \/ run_color r = Some (255, 165, 0))
    /\ (run_color r = None ->
        startswith (lit "low") (lower priority) = true).
Proof.
  intros He Hr Hb.
  apply docx_body_elements in He.
  destruct He as [He | (line & _ & He)].
  - unfold docx_frame_ok in He.
    destruct He as [He | [He | [He | [He | He]]]];
      try discriminate He; injection He as Eruns _; subst runs;
      cbn [In] in Hr;
      repeat (destruct Hr as [Er | Hr];
              [rewrite <- Er in Hb; discriminate Hb|]);
      contradiction.
  - inversion He as [ | | Hs H1 H2 E | priority description Hp E]; subst.
    + destruct Hr.
    + destruct Hr as [<- | []]. discriminate Hb.
    + destruct Hr as [<- | [<- | []]]; [|discriminate Hb].
      exists priority. split; [reflexivity|]. split; [exact Hp|].
      unfold priority_run. cbn [run_color].
      destruct (contains (lit "high") (lower priority)) eqn:Ch.
      * repeat split; auto. discriminate.
      * destruct (contains (lit "medium") (lower priority)) eqn:Cm.
        -- repeat split; auto; try discriminate.
           intro F. apply startswith_contains in F. congruence.
        -- repeat split.
           ++ intro F. apply startswith_contains in F. congruence.
           ++ intro F. apply startswith_contains in F. congruence.
           ++ intros _. destruct Hp as [F | [F | F]]; [| |assumption];
                apply startswith_contains in F; congruence.
Qed.

Lemma docx_priority_labels_witness :
  exists priority,
    run_text (priority_run (lit "Medium")) = priority ++ lit ": "
    /\ (startswith (lit "high") (lower priority) = true
        \/ startswith (lit "medium") (lower priority) = true
        \/ startswith (lit "low") (lower priority) = true)
    /\ (startswith (lit "high") (lower priority) = true ->
        run_color (priority_run (lit "Medium")) = Some (255, 0, 0))
    /\ (startswith (lit "medium") (lower priority) = true ->
        run_color (priority_run (lit "Medium")) = Some (255, 0, 0)
        \/ run_color (priority_run (lit "Medium")) = Some (255, 165, 0))
    /\ (run_color (priority_run (lit "Medium")) = None ->
        startswith (lit "low") (lower priority) = true).
Proof.
  apply (docx_priority_labels (lit "now")
           (lit "RISK ANALYSIS" ++ [TxtExport.newline] ++ lit "Medium: gap")
           [priority_run (lit "Medium"); plain_run (lit "gap")]
           AlignDefault).
  - vm_compute. tauto.
  - left. reflexivity.
  - reflexivity.
Defined.

Lemma lower_start_differs (c k : ascii) (p w : str) :
  lower_char c <> k ->
  startswith (k :: w) (lower p) = true -> forall rest, p <> c :: rest.
Proof.
  intros Hc H rest ->. cbn [lower map startswith] in H.
  apply andb_true_iff in H as [H _]. apply Ascii.eqb_eq in H. congruence.
Qed.

(** X15.  No paragraph of the Word document starts with ["="] or with
    ["-"]: the rules the sidebar writes under its titles and the lines of
    a list marked with dashes are not among its paragraphs. *)
Theorem docx_no_rule_no_dash (now content : str) (e : element) :
  In e (doc_body (generate_docx now content)) ->
  ~ paragraph_starts_with "="%char e /\ ~ paragraph_starts_with "-"%char e.
Proof.
  intro He. apply docx_body_elements in He.
  destruct He as [He | (line & _ & He)].
  - unfold docx_frame_ok in He.
    destruct He as [-> | [-> | [-> | [-> | ->]]]]; cbn;
      split; intro F; try contradiction; discriminate F.
  - inversion He as [ | | Hs H1 H2 E | priority description Hp E]; subst;
      cbn [paragraph_starts_with plain_run priority_run run_text].
    + tauto.
    + tauto.
    + destruct line as [|c rest]; [tauto|].
      cbn [startswith lit list_ascii_of_string] in H1, H2.
      rewrite andb_true_r in H1, H2.
      apply Ascii.eqb_neq in H1, H2. split; intro F; congruence.
    + destruct priority as [|c rest].
      { destruct Hp as [F | [F | F]]; discriminate F. }
      cbn [app].
      split; intros ->;
        destruct Hp as [F | [F | F]];
        cbn [lower map startswith lit list_ascii_of_string] in F;
        apply andb_true_iff in F as [F _]; discriminate F.
Qed.

Lemma has_text_count_app (l1 l2 : list element) :
  List.length (filter has_text (l1 ++ l2))
  = (List.length (filter has_text l1)
     + List.length (filter has_text l2))%nat.
Proof. now rewrite filter_app, length_app. Qed.

Lemma docx_step_count (current : option section) (doc : list element)
    (line : str) :
  List.length (filter has_text (snd (docx_step (current, doc) line)))
  = (List.length (filter has_text doc)
     + (if is_kept line then 1 else 0))%nat.
Proof.
  unfold docx_step, is_kept.
  destruct (contains (lit "DOCUMENT SUMMARY") line);
    [cbn [snd negb andb]; rewrite has_text_count_app; reflexivity|].
  destruct (contains (lit "RISK SCORE") line);
    [cbn [snd negb andb]; rewrite has_text_count_app; reflexivity|].
  destruct (contains (lit "RISK ANALYSIS") line);
    [cbn [snd negb andb]; rewrite has_text_count_app; reflexivity|].
  cbn [negb andb].
  destruct (truthy (strip line) && negb (startswith (lit "=") line)
            && negb (startswith (lit "-") line));
    [|cbn [snd]; lia].
  destruct (is_risk_analysis current);
    [|cbn [snd]; rewrite has_text_count_app; reflexivity].
  destruct ((startswith (lit "high") (lower line)
             || startswith (lit "medium") (lower line)
             || startswith (lit "low") (lower line))
            && contains (lit ":") line);
    [destruct (split_first ":"%char line)|];
    cbn [snd]; rewrite has_text_count_app; reflexivity.
Qed.

Lemma docx_fold_count (lines : list str) :
  forall (current : option section) (doc : list element),
    List.length
      (filter has_text (snd (fold_left docx_step lines (current, doc))))
    = (List.length (filter has_text doc)
       + List.length (filter is_kept lines))%nat.
Proof.
  induction lines as [|line rest IH]; intros current doc.
  - cbn. lia.
  - cbn [fold_left filter].
    destruct (docx_step (current, doc) line) as [c1 d1] eqn:E.
    rewrite IH.
    pose proof (docx_step_count current doc line) as C.
    rewrite E in C. cbn [snd] in C. rewrite C.
    destruct (is_kept line); cbn [List.length]; lia.
Qed.

(** X16.  The Word document has as many paragraphs with text as the
    content has lines that name no section, are not blank and start
    neither with ["="] nor with ["-"], and three more: the date, the rule
    under it and the closing line.  Every other line of the content is
    left out. *)
Theorem docx_paragraph_count (now content : str) :
  List.length (filter has_text (doc_body (generate_docx now content)))
  = (3 + List.length (filter is_kept
                        (split_on TxtExport.newline content)))%nat.
Proof.
  unfold generate_docx. cbv zeta.
  match goal with
  | |- context [fold_left docx_step ?ls (?c, ?d)] =>
      pose proof (docx_fold_count ls c d) as C;
      destruct (fold_left docx_step ls (c, d)) as [c' d'] eqn:E
  end.
  cbn [snd] in C. cbn [doc_body].
  rewrite has_text_count_app, C. cbn. lia.
Qed.

End DocxTheorems.

(** ** The session state *)

Section SessionState.

Import Session.

Lemma lookup_set_same (k : string) (v : value) (s : session) :
  lookup k (set k v s) = Some v.
Proof.
  induction s as [|[k0 w] rest IH]; cbn [set lookup].
  - now rewrite String.eqb_refl.
  - destruct (String.eqb k0 k) eqn:E; cbn [lookup]; rewrite E;
      [reflexivity | exact IH].
Qed.

Lemma lookup_set_other (k k' : string) (v : value) (s : session) :
  k <> k' -> lookup k' (set k v s) = lookup k' s.
Proof.
  intro Hne. induction s as [|[k0 w] rest IH]; cbn [set lookup].
  - destruct (String.eqb k k') eqn:E; [|reflexivity].
    apply String.eqb_eq in E. contradiction.
  - destruct (String.eqb k0 k) eqn:E; cbn [lookup].
    + apply String.eqb_eq in E. subst k0.
      destruct (String.eqb k k') eqn:E'; [|reflexivity].
      apply String.eqb_eq in E'. contradiction.
    + now rewrite IH.
Qed.

Lemma lookup_set_default (k k' : string) (v : value) (s : session) :
  lookup k' (set_default k v s)
  = match lookup k' s with
    | Some w => Some w
    | None => if String.eqb k k' then Some v else None
    end.
Proof.
  unfold set_default, mem.
  destruct (String.eqb k k') eqn:E.
  - apply String.eqb_eq in E. subst k'.
    destruct (lookup k s) eqn:L; cbn [negb]; [now rewrite L|].
    now rewrite lookup_set_same.
  - apply String.eqb_neq in E.
    destruct (lookup k s); cbn [negb];
      [|rewrite (lookup_set_other _ _ _ _ E)];
      destruct (lookup k' s); reflexivity.
Qed.

Lemma lookup_fold_defaults (l : list (string * value)) (k : string) :
  forall s,
    lookup k (fold_left (fun s kv => set_default (fst kv) (snd kv) s) l s)
    = match lookup k s with
      | Some w => Some w
      | None => lookup k l
      end.
Proof.
  induction l as [|[k0 v0] rest IH]; intro s; cbn [fold_left fst snd].
  - cbn [lookup]. destruct (lookup k s); reflexivity.
  - rewrite IH, lookup_set_default. cbn [lookup].
    destruct (lookup k s); [reflexivity|].
    destruct (String.eqb k0 k); reflexivity.
Qed.

Lemma fold_defaults_present (l : list (string * value)) :
  forall s,
    (forall kv, In kv l -> mem (fst kv) s = true) ->
    fold_left (fun s kv => set_default (fst kv) (snd kv) s) l s = s.
Proof.
  induction l as [|kv rest IH]; intros s H; [reflexivity|].
  cbn [fold_left]. unfold set_default at 2.
  rewrite (H kv (or_introl eq_refl)). cbn [negb].
  apply IH. intros x Hx. apply H. now right.
Qed.

Lemma lookup_defaults (key : string) (default : value) :
  In (key, default) defaults -> lookup key defaults = Some default.
Proof.
  intro H. cbn [defaults In] in H.
  repeat (destruct H as [E | H]; [injection E as <- <-; reflexivity|]).
  contradiction.
Qed.

Lemma lookup_initialized (s : session) (key : string) (default : value) :
  In (key, default) defaults ->
  lookup key (initialize_session_state s)
  = Some (match lookup key s with
          | Some v => v
          | None => default
          end).
Proof.
  intro H. unfold initialize_session_state.
  rewrite lookup_fold_defaults, (lookup_defaults _ _ H).
  destruct (lookup key s); reflexivity.
Qed.

(** X17.  After [initialize_session_state] each of its seven keys holds
    the value it had before, or its default if it was missing; every
    other key is as before; and a second call changes nothing. *)
Theorem initialize_session_state_spec (s : session) :
  (forall key default,
      In (key, default) defaults ->
      lookup key (initialize_session_state s)
      = Some (match lookup key s with
              | Some v => v
              | None => default
              end))
  /\ (forall key,
         lookup key defaults = None ->
         lookup key (initialize_session_state s) = lookup key s)
  /\ initialize_session_state (initialize_session_state s)
     = initialize_session_state s.
Proof.
  split; [|split].
  - intros key default H. now apply lookup_initialized.
  - intros key H. unfold initialize_session_state.
    rewrite lookup_fold_defaults, H.
    destruct (lookup key s); reflexivity.
  - unfold initialize_session_state at 1.
    apply fold_defaults_present. intros [key default] H. cbn [fst].
    unfold mem. now rewrite (lookup_initialized s key default H).
Qed.

Lemma consent_after_initialize (s : session) :
  consent_given s -> consent_given (initialize_session_state s).
Proof.
  intros (v & L & T). exists v. split; [|assumption].
  unfold initialize_session_state.
  now rewrite lookup_fold_defaults, L.
Qed.

(** X18.  On a session prepared by [initialize_session_state] the consent
    banner never fails on a missing key.  When it returns, it returns
    [True], and it has shown the banner exactly when [gdpr_consent] holds
    a false value and [show_gdpr_banner] a true one.  Without the banner
    the session is left as it is; with the banner the session has got the
    key [gdpr_accept] of the Accept button, with the value [False], and
    every other key is as it was. *)
Theorem consent_banner_after_initialize (s : session)
    (view_policy accept : bool) :
  let prepared := initialize_session_state s in
  show_gdpr_consent_banner view_policy accept prepared <> Raised
  /\ forall shown result s',
      show_gdpr_consent_banner view_policy accept prepared
      = Returned shown result s' ->
      result = Some true
      /\ (shown = true <->
          ~ consent_given prepared
          /\ exists b, lookup "show_gdpr_banner" prepared = Some b
                       /\ truthy_value b = true)
      /\ (shown = false -> s' = prepared)
      /\ (shown = true ->
          lookup "gdpr_accept" s' = Some (VBool false)
          /\ forall key, key <> "gdpr_accept"%string ->
                         lookup key s' = lookup key prepared).
Proof.
  cbv zeta.
  pose proof (lookup_initialized s "gdpr_consent"%string (VBool false)) as Lc.
  pose proof (lookup_initialized s "show_gdpr_banner"%string (VBool true))
    as Lb.
  specialize (Lc ltac:(cbn; tauto)). specialize (Lb ltac:(cbn; tauto)).
  set (prepared := initialize_session_state s) in *. clearbody prepared.
  set (c := match lookup "gdpr_consent" s with
            | Some v => v | None => VBool false end) in *.
  set (b := match lookup "show_gdpr_banner" s with
            | Some v => v | None => VBool true end) in *.
  clearbody c b.
  unfold show_gdpr_consent_banner, consent_given. rewrite Lc, Lb.
  destruct (truthy_value c) eqn:Tc; cbn [negb].
  - split; [discriminate|].
    intros shown result s' E. injection E as <- <- <-.
    repeat split; try discriminate.
    intros [N _]. exfalso. apply N. eauto.
  - destruct (truthy_value b) eqn:Tb.
    + destruct view_policy;
        [split; [discriminate | intros ? ? ? E; discriminate E]|].
      cbv zeta.
      destruct accept;
        [split; [discriminate | intros ? ? ? E; discriminate E]|].
      split; [discriminate|].
      intros shown result s' E. injection E as <- <- <-.
      split; [reflexivity|]. split; [|split].
      * split; [intros _|reflexivity].
        split; [|eauto].
        intros (v & Ev & Tv). congruence.
      * discriminate.
      * intros _. unfold keyed_button. split.
        -- apply lookup_set_same.
        -- intros key Hk. apply lookup_set_other. congruence.
    + split; [discriminate|].
      intros shown result s' E. injection E as <- <- <-.
      repeat split; try discriminate.
      intros [_ (v & Ev & Tv)]. congruence.
Qed.

(** X19.  Consent is never taken back: [initialize_session_state] and the
    three functions of gdpr_compliance.py leave a session with consent a
    session with consent, whatever button is pressed; with consent the
    banner is not shown; and pressing Accept on the banner gives
    consent. *)
Theorem consent_is_kept (s : session) :
  (consent_given s ->
   consent_given (initialize_session_state s)
   /\ (forall view_policy accept,
          show_gdpr_consent_banner view_policy accept s
          = Returned false (Some true) s)
   /\ (forall pressed s',
          session_after (add_privacy_policy_footer pressed s) = Some s'
          \/ session_after (show_privacy_policy pressed s) = Some s' ->
          consent_given s'))
  /\ (forall s',
         show_gdpr_consent_banner false true s = Rerun s' ->
         consent_given s').
Proof.
  assert (Keep : forall k v, k <> "gdpr_consent"%string ->
                             consent_given s -> consent_given (set k v s)).
  { intros k v Hk (w & L & T). exists w.
    now rewrite lookup_set_other. }
  split.
  - intro Hc. split; [now apply consent_after_initialize|]. split.
    + intros view_policy accept. unfold show_gdpr_consent_banner.
      destruct Hc as (v & -> & ->). reflexivity.
    + intros pressed s' [H | H];
        unfold add_privacy_policy_footer, show_privacy_policy, keyed_button
          in H;
        destruct pressed; cbn [session_after] in H; injection H as <-;
        try assumption;
        repeat (first [ assumption
                      | destruct Hc as (w & L & T); exists w;
                        split; [|exact T];
                        rewrite ?lookup_set_other by discriminate;
                        exact L ]).
  - intros s' H. unfold show_gdpr_consent_banner in H.
    destruct (lookup "gdpr_consent" s) as [c|]; [|discriminate H].
    destruct (negb (truthy_value c)); [|discriminate H].
    destruct (lookup "show_gdpr_banner" s) as [b|]; [|discriminate H].
    destruct (truthy_value b); [|discriminate H].
    cbv zeta in H. injection H as <-.
    exists (VBool true). split; [|reflexivity].
    rewrite lookup_set_other by discriminate.
    apply lookup_set_same.
Qed.

Lemma consent_is_kept_witness :
  consent_given (initialize_session_state [("gdpr_consent"%string, VBool true)])
  /\ consent_given
       (set "show_gdpr_banner" (VBool false)
          (set "gdpr_consent" (VBool true)
             (keyed_button "gdpr_accept" true
                (initialize_session_state [])))).
Proof.
  split.
  - apply (proj1 (consent_is_kept [("gdpr_consent"%string, VBool true)])).
    exists (VBool true). split; reflexivity.
  - apply (proj2 (consent_is_kept (initialize_session_state []))).
    reflexivity.
Defined.

End SessionState.

(** ** Case, and the shape of the findings *)

Section CaseAndShape.

Lemma lower_char_idempotent (c : ascii) :
  lower_char (lower_char c) = lower_char c.
Proof. destruct c as [[] [] [] [] [] [] [] []]; reflexivity. Qed.

Lemma lower_idempotent (s : str) : lower (lower s) = lower s.
Proof.
  unfold lower. rewrite map_map. apply map_ext.
  intro c. apply lower_char_idempotent.
Qed.

(** X20.  Case does not matter to the two scoring functions: both lower
    the text before they read it, so two texts with the same lower-cased
    form get the same tuples from [calculate_risk_score] and from
    [calculate_risk_counts], and the lower-cased text gets the tuples of
    the text itself. *)
Theorem scoring_ignores_case (text : str) :
  (forall other : str,
      lower other = lower text ->
      App.calculate_risk_score (PyStr other)
      = App.calculate_risk_score (PyStr text)
      /\ EmailService.calculate_risk_counts other
         = EmailService.calculate_risk_counts text)
  /\ App.calculate_risk_score (PyStr (lower text))
     = App.calculate_risk_score (PyStr text)
  /\ EmailService.calculate_risk_counts (lower text)
     = EmailService.calculate_risk_counts text.
Proof.
  assert (H : forall other : str,
             lower other = lower text ->
             App.calculate_risk_score (PyStr other)
             = App.calculate_risk_score (PyStr text)
             /\ EmailService.calculate_risk_counts other
                = EmailService.calculate_risk_counts text).
  { intros other E. split.
    - unfold App.calculate_risk_score.
      cbn [py_truthy isinstance_str].
      rewrite <- (truthy_map lower_char other).
      rewrite <- (truthy_map lower_char text).
      fold (lower other). fold (lower text).
      now rewrite E.
    - unfold EmailService.calculate_risk_counts. now rewrite E. }
  split; [exact H|].
  split; apply H; apply lower_idempotent.
Qed.

Lemma scoring_ignores_case_witness :
  App.calculate_risk_score (PyStr (lit "a critical GAP. Medium"))
  = App.calculate_risk_score (PyStr (lit "A CRITICAL gap. medium"))
  /\ EmailService.calculate_risk_counts (lit "a critical GAP. Medium")
     = EmailService.calculate_risk_counts (lit "A CRITICAL gap. medium").
Proof.
  apply (proj1 (scoring_ignores_case (lit "A CRITICAL gap. medium"))
           (lit "a critical GAP. Medium")).
  reflexivity.
Defined.

Lemma rstrip_head (c : ascii) (r : str) :
  is_space c = false -> exists kept, rstrip (c :: r) = c :: kept.
Proof.
  intro Hc. cbn [rstrip]. destruct (rstrip r) as [|k kept].
  - rewrite Hc. now exists [].
  - now exists (k :: kept).
Qed.

Lemma rstrip_cons (c : ascii) (r : str) :
  rstrip (c :: r)
  = match rstrip r with
    | [] => if is_space c then [] else [c]
    | kept => c :: kept
    end.
Proof. reflexivity. Qed.

Lemma rstrip_idempotent (s : str) : rstrip (rstrip s) = rstrip s.
Proof.
  induction s as [|c r IH]; [reflexivity|].
  rewrite (rstrip_cons c r). destruct (rstrip r) as [|k kept] eqn:E.
  - destruct (is_space c) eqn:Hc; [reflexivity|].
    rewrite rstrip_cons. cbn [rstrip]. now rewrite Hc.
  - rewrite rstrip_cons, IH. reflexivity.
Qed.

Lemma lstrip_head (s : str) :
  lstrip s = [] \/ exists c r, lstrip s = c :: r /\ is_space c = false.
Proof.
  induction s as [|c r IH]; [now left|].
  cbn [lstrip]. destruct (is_space c) eqn:Hc; [exact IH|].
  right. now exists c, r.
Qed.

Lemma strip_idempotent (s : str) : strip (strip s) = strip s.
Proof.
  unfold strip.
  destruct (lstrip_head s) as [-> | (c & r & -> & Hc)]; [reflexivity|].
  destruct (rstrip_head c r Hc) as (kept & E).
  rewrite E. cbn [lstrip]. rewrite Hc. rewrite <- E.
  apply rstrip_idempotent.
Qed.

Lemma sentence_shape (text s : str) :
  In s (sentences_of text) ->
  s <> [] /\ ~ In dot s /\ strip s = s.
Proof.
  unfold sentences_of. intro H.
  apply in_map_iff in H as (x & <- & Hx).
  apply filter_In in Hx as [Hx Ht].
  split; [|split].
  - destruct (strip x); [discriminate Ht | discriminate].
  - intro F. apply strip_subset in F.
    exact (split_on_no_sep _ _ _ Hx F).
  - apply strip_idempotent.
Qed.

(** X21.  Every finding of [categorize_risks] and of
    [display_risks_with_filters] is a clause of the text: it is not
    empty, holds no full stop, and has no blank at either end; and each
    of the three lists keeps its clauses in the order of the text. *)
Theorem findings_are_clean_clauses (text : str) :
  (forall s,
      (let '(hs, ms, ls) := EmailService.categorize_risks text in
       In s hs \/ In s ms \/ In s ls)
      \/ (let '(hs, ms, ls) := App.display_risks_with_filters (PyStr text) in
          In s hs \/ In s ms \/ In s ls) ->
      s <> [] /\ ~ In dot s /\ strip s = s)
  /\ (exists ph pm pl,
         EmailService.categorize_risks text
         = (filter ph (sentences_of text), filter pm (sentences_of text),
            filter pl (sentences_of text)))
  /\ (exists ph pm pl,
         App.display_risks_with_filters (PyStr text)
         = (filter ph (sentences_of text), filter pm (sentences_of text),
            filter pl (sentences_of text))).
Proof.
  split; [|split].
  - intros s H. apply (sentence_shape text).
    rewrite display_risks_as_loop in H.
    unfold EmailService.categorize_risks in H.
    rewrite !categorize_loop_filter in H.
    repeat rewrite filter_In in H. tauto.
  - unfold EmailService.categorize_risks.
    rewrite categorize_loop_filter. eauto.
  - rewrite display_risks_as_loop, categorize_loop_filter. eauto.
Qed.

(** X22.  Each count of [calculate_risk_counts] is a number of clauses
    of the text: none exceeds the number of clauses, and the low count
    does not exceed the number of clauses of more than 5 words. *)
Theorem email_counts_are_clause_counts (text : str) :
  exists s h m l,
    EmailService.calculate_risk_counts text = Some (s, h, m, l)
    /\ h <= Z.of_nat (List.length (sentences_of text))
    /\ m <= Z.of_nat (List.length (sentences_of text))
    /\ l <= Z.of_nat (List.length
                        (filter (fun c => 5 <? word_count c)
                                (sentences_of text))).
Proof.
  destruct (calculate_risk_counts_counts text) as [s E]. cbv zeta in E.
  eexists _, _, _, _. split; [exact E|].
  rewrite sentences_of_lower, !count_if_lower.
  pose proof (filter_length_le
                (fun c => any_in (words ["critical"; "severe"; "high risk";
                                         "significant"; "major"]%string)
                                 (lower c))
                (sentences_of text)).
  pose proof (filter_length_le
                (fun c => any_in (words ["moderate"; "medium"; "potential";
                                         "concerning"]%string)
                                 (lower c))
                (sentences_of text)).
  split; [lia|]. split; [lia|].
  clear. apply Nat2Z.inj_le.
  induction (sentences_of text) as [|c r IH]; [cbn; lia|].
  cbn [filter]. rewrite word_count_lower.
  destruct (5 <? word_count c); cbn [andb].
  - destruct (negb _); cbn [List.length]; lia.
  - exact IH.
Qed.

End CaseAndShape.

Lemma docx_no_rule_no_dash_witness :
  ~ DocxExport.paragraph_starts_with "="%char
      (DocxExport.Paragraph [DocxExport.plain_run (lit "kept")]
                            DocxExport.AlignDefault)
  /\ ~ DocxExport.paragraph_starts_with "-"%char
         (DocxExport.Paragraph [DocxExport.plain_run (lit "kept")]
                               DocxExport.AlignDefault).
Proof.
  apply (docx_no_rule_no_dash (lit "now")
           (lit "- dropped" ++ [TxtExport.newline] ++ lit "kept")).
  vm_compute. tauto.
Defined.
